(** * Youth-employment dashboard (app.py): data preparation, geo join,
      figure builders and the comparison callback.

    The script is embedded shallowly.  Text is a list of Unicode code
    points, pandas columns are lists of cells in which [None] stands for
    NaN, and numbers are rationals (floating-point rounding is abstracted
    away: no statement below depends on it).  The functions of the Python
    libraries that the script calls but does not define (Unicode NFKD,
    [str.capitalize], the ordering of [sort_values], the plotting backend)
    are variables of the section that holds the program. *)

From Stdlib Require Import QArith Qminmax Lqa.
From stdpp Require Import base decidable option list numbers strings sorting.

Set Default Proof Using "Type".
Open Scope N_scope.

(** ** Text *)

(** A Python [str]: a sequence of code points. *)
Abbreviation ustr := (list N).

(** An ASCII literal of the script, as code points. *)
Definition codes (s : string) : ustr :=
  map Ascii.N_of_ascii (String.list_ascii_of_string s).

Definition is_ascii (c : N) : Prop := c < 128.
Definition is_upper_letter (c : N) : Prop := 65 ≤ c ≤ 90.
Definition is_lower_letter (c : N) : Prop := 97 ≤ c ≤ 122.

#[global] Instance is_ascii_dec c : Decision (is_ascii c).
Proof. unfold is_ascii. apply _. Defined.
#[global] Instance is_upper_letter_dec c : Decision (is_upper_letter c).
Proof. unfold is_upper_letter. apply _. Defined.
#[global] Instance is_lower_letter_dec c : Decision (is_lower_letter c).
Proof. unfold is_lower_letter. apply _. Defined.

(** [.encode('ascii', errors='ignore').decode('utf-8')]: the code points
    the ASCII codec cannot encode are dropped; decoding ASCII bytes as
    UTF-8 gives back the same characters. *)
Definition encode_ascii_ignore (s : ustr) : ustr := filter is_ascii s.

(** [str.lower] and [str.upper].  The script applies them to text that is
    ASCII only (after [encode_ascii_ignore], or to keys derived from such
    text), where they act letter by letter on A-Z and a-z; other code
    points are left as they are. *)
Definition lower_char (c : N) : N := if decide (is_upper_letter c) then c + 32 else c.
Definition upper_char (c : N) : N := if decide (is_lower_letter c) then c - 32 else c.
Definition str_lower (s : ustr) : ustr := map lower_char s.
Definition str_upper (s : ustr) : ustr := map upper_char s.

(** Lexicographic order of Python strings (by code point), used by
    [groupby] to order its keys. *)
Fixpoint ustr_leb (a b : ustr) : bool :=
  match a, b with
  | [], _ => true
  | _ :: _, [] => false
  | x :: a', y :: b' => if decide (x = y) then ustr_leb a' b' else bool_decide (x < y)
  end.
Definition ustr_le (a b : ustr) : Prop := ustr_leb a b = true.
#[global] Instance ustr_le_dec : RelDecision ustr_le.
Proof. intros a b. unfold ustr_le. apply _. Defined.

(** The alias table of the script (a Python dict, keys are distinct). *)
Definition correcciones : list (ustr * ustr) :=
  [ (codes "bogota d.c.", codes "bogota, d.c.");
    (codes "valle del cauca", codes "valle");
    (codes "cordoba", codes "cordoba") ].

Fixpoint dict_get (d : list (ustr * ustr)) (k : ustr) : option ustr :=
  match d with
  | [] => None
  | (k', v) :: d' => if decide (k' = k) then Some v else dict_get d' k
  end.

(** [Series.replace(dict)] on one value: a whole-value match is replaced,
    anything else is kept. *)
Definition replace_value (d : list (ustr * ustr)) (x : ustr) : ustr :=
  default x (dict_get d x).

(** A decomposition table for the accented Latin-1 letters, enough to run
    the script on Spanish department names: the letter is followed by its
    combining mark (U+0300 grave, U+0301 acute, U+0302 circumflex, U+0303
    tilde, U+0308 diaeresis, U+030A ring, U+0327 cedilla).  It is one
    instance of the [nfkd] variable below. *)
Definition latin1_decomp (c : N) : list N :=
  if decide (c = 192) then [65; 768] else if decide (c = 193) then [65; 769]
  else if decide (c = 194) then [65; 770] else if decide (c = 195) then [65; 771]
  else if decide (c = 196) then [65; 776] else if decide (c = 197) then [65; 778]
  else if decide (c = 199) then [67; 807]
  else if decide (c = 200) then [69; 768] else if decide (c = 201) then [69; 769]
  else if decide (c = 202) then [69; 770] else if decide (c = 203) then [69; 776]
  else if decide (c = 204) then [73; 768] else if decide (c = 205) then [73; 769]
  else if decide (c = 206) then [73; 770] else if decide (c = 207) then [73; 776]
  else if decide (c = 209) then [78; 771]
  else if decide (c = 210) then [79; 768] else if decide (c = 211) then [79; 769]
  else if decide (c = 212) then [79; 770] else if decide (c = 213) then [79; 771]
  else if decide (c = 214) then [79; 776]
  else if decide (c = 217) then [85; 768] else if decide (c = 218) then [85; 769]
  else if decide (c = 219) then [85; 770] else if decide (c = 220) then [85; 776]
  else if decide (c = 221) then [89; 769]
  else if decide (c = 224) then [97; 768] else if decide (c = 225) then [97; 769]
  else if decide (c = 226) then [97; 770] else if decide (c = 227) then [97; 771]
  else if decide (c = 228) then [97; 776] else if decide (c = 229) then [97; 778]
  else if decide (c = 231) then [99; 807]
  else if decide (c = 232) then [101; 768] else if decide (c = 233) then [101; 769]
  else if decide (c = 234) then [101; 770] else if decide (c = 235) then [101; 776]
  else if decide (c = 236) then [105; 768] else if decide (c = 237) then [105; 769]
  else if decide (c = 238) then [105; 770] else if decide (c = 239) then [105; 776]
  else if decide (c = 241) then [110; 771]
  else if decide (c = 242) then [111; 768] else if decide (c = 243) then [111; 769]
  else if decide (c = 244) then [111; 770] else if decide (c = 245) then [111; 771]
  else if decide (c = 246) then [111; 776]
  else if decide (c = 249) then [117; 768] else if decide (c = 250) then [117; 769]
  else if decide (c = 251) then [117; 770] else if decide (c = 252) then [117; 776]
  else if decide (c = 253) then [121; 769] else if decide (c = 255) then [121; 776]
  else [c].
Definition nfkd_latin1 (s : ustr) : ustr := mbind latin1_decomp s.

(** [str.capitalize] on ASCII text: first letter upper case, the rest
    lower case.  One instance of the [capitalize] variable below. *)
Definition ascii_capitalize (s : ustr) : ustr :=
  match s with
  | [] => []
  | c :: s' => upper_char c :: str_lower s'
  end.

(** ** Errors *)

(** The Python exceptions that can reach the handlers of the script; every
    handler is [except Exception], so it catches all of them. *)
Inductive exn := FileNotFoundError | ParserError | KeyError | AttributeError | ValueError.

Inductive result (A : Type) : Type :=
| Ok (a : A)
| Raise (e : exn).
Arguments Ok {A} a.
Arguments Raise {A} e.

#[global] Instance result_fmap : FMap result := fun A B f r =>
  match r with Ok a => Ok (f a) | Raise e => Raise e end.

(** [try: body  except Exception as e: handler]. *)
Definition try_except {A} (body : result A) (handler : exn -> result A) : result A :=
  match body with
  | Ok a => Ok a
  | Raise e => handler e
  end.

(** ** Tables *)

(** One row of the CSV file, columns ID, Departamento, Latitud, Longitud,
    Edad, Ocupación, Ingreso.  An empty cell is [None] (NaN). *)
Record FilaCSV := {
  csv_ID : Z;
  csv_Departamento : option ustr;
  csv_Latitud : option Q;
  csv_Longitud : option Q;
  csv_Edad : option Q;
  csv_Ocupacion : option ustr;
  csv_Ingreso : option Q }.

(** One row of [df]: the CSV columns and the two derived keys. *)
Record Registro := {
  ID : Z;
  Departamento : option ustr;
  Latitud : option Q;
  Longitud : option Q;
  Edad : option Q;
  Ocupacion : option ustr;
  Ingreso : option Q;
  departamento : option ustr;
  ocupacion : option ustr }.

(** A data frame: its column labels, in order, and its rows. *)
Record Frame := { columnas : list string; filas : list Registro }.

Definition columnas_csv : list string :=
  ["ID"; "Departamento"; "Latitud"; "Longitud"; "Edad"; "Ocupación"; "Ingreso"]%string.

(** Lines 65-75: the example table built when the file cannot be read.
    The column order is that of the dict literal. *)
Definition datos_ejemplo : Frame :=
  {| columnas := ["ID"; "Departamento"; "departamento"; "Latitud"; "Longitud";
                  "Edad"; "Ocupación"; "ocupacion"; "Ingreso"]%string;
     filas :=
       [ {| ID := 1; Departamento := Some (codes "Santander");
            departamento := Some (codes "santander");
            Latitud := Some (71254 # 10000)%Q; Longitud := Some (-731198 # 10000)%Q;
            Edad := Some 20%Q; Ocupacion := Some (codes "Estudiante");
            ocupacion := Some (codes "estudiante"); Ingreso := Some 868997%Q |};
         {| ID := 2; Departamento := Some (codes "Cundinamarca");
            departamento := Some (codes "cundinamarca");
            Latitud := Some (46814 # 10000)%Q; Longitud := Some (-741371 # 10000)%Q;
            Edad := Some 24%Q; Ocupacion := Some (codes "Desempleado");
            ocupacion := Some (codes "desempleado"); Ingreso := Some 586245%Q |};
         {| ID := 3; Departamento := Some (codes "Bogot" ++ [225] ++ codes " D.C.");
            departamento := Some (codes "bogota d.c.");
            Latitud := Some (47110 # 10000)%Q; Longitud := Some (-740721 # 10000)%Q;
            Edad := Some 25%Q; Ocupacion := Some (codes "Trabajador");
            ocupacion := Some (codes "trabajador"); Ingreso := Some 415614%Q |} ] |}.

(** One polygon of the boundary layer [gdf], as it stands at line 112. *)
Definition Geometry := list (list (Q * Q)).
Record Limite := { DPTO_CNMBR : option ustr; geometry : Geometry }.

(** A text cell after [fillna(0)]: the text, or the number 0 that took
    the place of NaN. *)
Inductive celda := Texto (s : ustr) | Cero.

(** One row of [gdf_merged]. *)
Record FilaUnida := {
  u_DPTO_CNMBR : celda;
  u_geometry : Geometry;
  u_DPTO_CNMBR_NORM : celda;
  u_departamento : celda;
  u_ingreso_promedio : Q;
  u_departamento_upper : celda }.

(** One row of [dept_coords] in [create_alternative_map]. *)
Record CoordDepto := {
  cd_departamento : ustr;
  cd_Latitud : option Q;
  cd_Longitud : option Q;
  cd_Ingreso : option Q }.

(** ** Column operations of pandas *)

Definition empty {A} (l : list A) : bool :=
  match l with [] => true | _ :: _ => false end.

Definition Qsum (xs : list Q) : Q := foldr Qplus 0%Q xs.

(** [Series.mean()]: NaN cells are skipped; with nothing left it is NaN. *)
Definition mean (col : list (option Q)) : option Q :=
  match omap id col with
  | [] => None
  | v :: vs => Some (Qsum (v :: vs) / inject_Z (Z.of_nat (length (v :: vs))))%Q
  end.

Definition Qmenor (a b : Q) : Q := if Qle_bool a b then a else b.
Definition Qmayor (a b : Q) : Q := if Qle_bool a b then b else a.

(** [Series.min()] and [Series.max()]: NaN cells are skipped. *)
Definition series_min (col : list (option Q)) : option Q :=
  match omap id col with
  | [] => None
  | v :: vs => Some (foldl Qmenor v vs)
  end.
Definition series_max (col : list (option Q)) : option Q :=
  match omap id col with
  | [] => None
  | v :: vs => Some (foldl Qmayor v vs)
  end.

(** The keys of [groupby]: the distinct non-NaN values, sorted. *)
Definition group_keys (col : list (option ustr)) : list ustr :=
  merge_sort ustr_le (remove_dups (omap id col)).

(** [df.groupby(clave)[valor].mean().reset_index()]. *)
Definition groupby_mean (clave : Registro -> option ustr) (valor : Registro -> option Q)
    (df : list Registro) : list (ustr * option Q) :=
  (fun k => (k, mean (valor <$> filter (fun r => clave r = Some k) df)))
    <$> group_keys (clave <$> df).

(** The order [sort_values] puts a numeric column in: ascending or
    descending, NaN last either way. *)
Definition orden_valores (asc : bool) (a b : ustr * option Q) : Prop :=
  match a.2, b.2 with
  | Some x, Some y => if asc then (x <= y)%Q else (y <= x)%Q
  | _, None => True
  | None, Some _ => False
  end.

#[global] Instance orden_valores_dec asc : RelDecision (orden_valores asc).
Proof.
  intros [? [x|]] [? [y|]]; unfold orden_valores; simpl; try apply _.
  - destruct asc; [destruct (Qlt_le_dec y x) | destruct (Qlt_le_dec x y)];
      first [ by left | right; by apply Qlt_not_le ].
Defined.

(** A sorting routine with that order, for the instances. *)
Definition ordenar (asc : bool) (t : list (ustr * option Q)) : list (ustr * option Q) :=
  merge_sort (orden_valores asc) t.

(** ** Charts *)

(** What a call to plotly express is given: the kind of chart, its data
    and the arguments the properties below are about. *)
Inductive ChartSpec :=
| Choropleth (data : list FilaUnida) (geojson : list Limite)
             (range_color : option Q * option Q)
| ScatterMapboxDeptos (data : list CoordDepto)
| ScatterMapboxPuntos (data : list Registro)
| Pie (data : list (ustr * option Q))
| Bar (data : list (ustr * option Q)) (horizontal : bool) (title : option string)
| Box (data : list Registro)
| Scatter (data : option (list Registro)).

Record Figure := { fig_spec : ChartSpec; fig_title : option string }.

(** [fig.update_layout(title=t)]. *)
Definition update_layout_title (t : string) (f : Figure) : Figure :=
  {| fig_spec := fig_spec f; fig_title := Some t |}.

(** ** Comparison table *)

Record FilaComparativa := {
  c_Departamento : ustr;
  c_Edad_Promedio : option Q;
  c_Ingreso_Promedio : option Q;
  c_Total_Jovenes : nat;
  c_pct_Estudiantes : Q;
  c_pct_Trabajadores : Q;
  c_pct_Desempleados : Q;
  c_Ingreso_Estudiantes : option Q;
  c_Ingreso_Trabajadores : option Q;
  c_Ingreso_Desempleados : option Q }.

(** What the callback hands back to the page. *)
Inductive componente :=
| html_P (texto : string)
| DataTable (data : list FilaComparativa).

Definition mensaje_seleccion : string :=
  "Por favor, seleccione al menos un departamento para comparar.".

(** A backend for the instances: it builds every chart. *)
Definition px_total (s : ChartSpec) : result Figure :=
  Ok {| fig_spec := s; fig_title := None |}.

(** A backend that builds the empty scatter chart and the maps but raises
    on every other chart. *)
Definition px_solo_mapas (s : ChartSpec) : result Figure :=
  match s with
  | Scatter None | Choropleth _ _ _ | ScatterMapboxDeptos _ | ScatterMapboxPuntos _ =>
      Ok {| fig_spec := s; fig_title := None |}
  | _ => Raise ValueError
  end.

(** A backend that builds the empty scatter chart only. *)
Definition px_solo_vacio (s : ChartSpec) : result Figure :=
  match s with
  | Scatter None => Ok {| fig_spec := s; fig_title := None |}
  | _ => Raise ValueError
  end.

(** The table of the script when the file is missing, and the records of
    one department of it, as inputs of the examples. *)
Definition lectura_fallida : result (list FilaCSV) := Raise FileNotFoundError.

Definition limite_amazonas : Limite :=
  {| DPTO_CNMBR := Some (codes "AMAZONAS");
     geometry := [[(-70 # 1, -4 # 1); (-70 # 1, 0 # 1); (-74 # 1, 0 # 1)]]%Q |}.

Definition limite_santander : Limite :=
  {| DPTO_CNMBR := Some (codes "SANTANDER");
     geometry := [[(-74 # 1, 6 # 1); (-72 # 1, 6 # 1); (-73 # 1, 8 # 1)]]%Q |}.

Definition limite_bogota : Limite :=
  {| DPTO_CNMBR := Some (codes "BOGOT" ++ [193] ++ codes ", D.C.");
     geometry := [[(-74 # 1, 4 # 1); (-74 # 1, 5 # 1); (-75 # 1, 4 # 1)]]%Q |}.

Definition limite_valle : Limite :=
  {| DPTO_CNMBR := Some (codes "VALLE DEL CAUCA");
     geometry := [[(-76 # 1, 3 # 1); (-76 # 1, 4 # 1); (-77 # 1, 4 # 1)]]%Q |}.

(** A file of three rows, one of them with no income. *)
Definition lectura_tres_filas : result (list FilaCSV) :=
  Ok [ {| csv_ID := 1; csv_Departamento := Some (codes "Bogot" ++ [225] ++ codes " D.C.");
          csv_Latitud := Some (4711 # 1000)%Q; csv_Longitud := Some (-74072 # 1000)%Q;
          csv_Edad := Some 22%Q; csv_Ocupacion := Some (codes "Trabajador");
          csv_Ingreso := Some 1000000%Q |};
       {| csv_ID := 2; csv_Departamento := Some (codes "Valle del Cauca");
          csv_Latitud := Some (3451 # 1000)%Q; csv_Longitud := Some (-76532 # 1000)%Q;
          csv_Edad := Some 20%Q; csv_Ocupacion := Some (codes "Estudiante");
          csv_Ingreso := Some 500000%Q |};
       {| csv_ID := 3; csv_Departamento := Some (codes "Bogot" ++ [225] ++ codes " D.C.");
          csv_Latitud := Some (4650 # 1000)%Q; csv_Longitud := Some (-74100 # 1000)%Q;
          csv_Edad := Some 24%Q; csv_Ocupacion := Some (codes "Desempleado");
          csv_Ingreso := None |} ].

(** A backend that raises on every chart. *)
Definition px_nada (s : ChartSpec) : result Figure := Raise ValueError.

(** A file of ten records, one per department, all incomes different. *)
Definition fila_csv (i : Z) (dep : string) (edad ingreso : Z) : FilaCSV :=
  {| csv_ID := i; csv_Departamento := Some (codes dep);
     csv_Latitud := Some (inject_Z (4 + i)); csv_Longitud := Some (inject_Z (-74));
     csv_Edad := Some (inject_Z edad); csv_Ocupacion := Some (codes "Trabajador");
     csv_Ingreso := Some (inject_Z ingreso) |}.

Definition lectura_diez : result (list FilaCSV) :=
  Ok [ fila_csv 1 "Antioquia" 20 900000; fila_csv 2 "Atlantico" 21 1200000;
       fila_csv 3 "Bolivar" 22 700000; fila_csv 4 "Boyaca" 23 650000;
       fila_csv 5 "Caldas" 24 800000; fila_csv 6 "Cauca" 25 500000;
       fila_csv 7 "Cesar" 26 550000; fila_csv 8 "Huila" 27 600000;
       fila_csv 9 "Meta" 18 1000000; fila_csv 10 "Narino" 19 1100000 ].

(** Whether no two rows of a table have the same mean (a check that
    runs; rows with NaN are not compared). *)
Fixpoint distintasb (t : list (ustr * option Q)) : bool :=
  match t with
  | [] => true
  | a :: t' =>
      forallb (fun b => match a.2, b.2 with
                        | Some x, Some y => negb (Qeq_bool x y)
                        | _, _ => true
                        end) t'
      && distintasb t'
  end.

Section App.

(** ** The library functions the script relies on *)

(** [unicodedata]'s NFKD normal form, behind [str.normalize('NFKD')]. *)
Variable nfkd : ustr -> ustr.

(** [str.capitalize]. *)
Variable capitalize : ustr -> ustr.

(** [DataFrame.sort_values] on a numeric column (the default sort of
    pandas is not stable, so nothing is fixed about ties). *)
Variable sort_values : bool -> list (ustr * option Q) -> list (ustr * option Q).

(** plotly express: building a chart either gives a figure or raises. *)
Variable px : ChartSpec -> result Figure.

(** ** Loading and cleaning (lines 54-88) *)

(** Lines 58-59: the cleaning applied to the text columns. *)
Definition limpiar (s : ustr) : ustr :=
  str_lower (encode_ascii_ignore (nfkd s)).

(** Lines 58 and 88 together: the department key. *)
Definition normalizar_departamento (s : ustr) : ustr :=
  replace_value correcciones (limpiar s).

(** Line 59: the occupation key (no alias table is applied to it). *)
Definition normalizar_ocupacion (s : ustr) : ustr := limpiar s.

Definition fila_limpia (r : FilaCSV) : Registro :=
  {| ID := csv_ID r; Departamento := csv_Departamento r;
     Latitud := csv_Latitud r; Longitud := csv_Longitud r;
     Edad := csv_Edad r; Ocupacion := csv_Ocupacion r; Ingreso := csv_Ingreso r;
     departamento := limpiar <$> csv_Departamento r;
     ocupacion := limpiar <$> csv_Ocupacion r |}.

(** Lines 55-75.  [lectura] is what the body of the [try] comes to before
    the two derived columns are added: the rows read, or the exception
    raised by [pd.read_csv] or by the access to a text column that the
    file lacks or that holds no text. *)
Definition cargar_datos (lectura : result (list FilaCSV)) : Frame :=
  match lectura with
  | Ok csv => {| columnas := columnas_csv ++ ["departamento"; "ocupacion"]%string;
                 filas := fila_limpia <$> csv |}
  | Raise _ => datos_ejemplo
  end.

(** Line 88: [df['departamento'].replace(correcciones)]. *)
Definition aplicar_correcciones (r : Registro) : Registro :=
  {| ID := ID r; Departamento := Departamento r;
     Latitud := Latitud r; Longitud := Longitud r;
     Edad := Edad r; Ocupacion := Ocupacion r; Ingreso := Ingreso r;
     departamento := replace_value correcciones <$> departamento r;
     ocupacion := ocupacion r |}.

(** The table [df] that the rest of the script works on. *)
Definition df_de (lectura : result (list FilaCSV)) : list Registro :=
  aplicar_correcciones <$> filas (cargar_datos lectura).

(** ** Aggregates (lines 90-109) *)

Definition ingreso_por_departamento (df : list Registro) : list (ustr * option Q) :=
  groupby_mean departamento Ingreso df.

Definition ingreso_por_ocupacion (df : list Registro) : list (ustr * option Q) :=
  groupby_mean ocupacion Ingreso df.

Definition edad_por_departamento (df : list Registro) : list (ustr * option Q) :=
  groupby_mean departamento Edad df.

(** [df['ocupacion'].value_counts().reset_index()]: one row per value
    with its count, largest count first. *)
Definition ocupacion_counts (df : list Registro) : list (ustr * option Q) :=
  sort_values false
    ((fun k => (k, Some (inject_Z (Z.of_nat
                  (length (filter (fun r => ocupacion r = Some k) df))))))
       <$> remove_dups (omap ocupacion df)).

(** ** Geo join (lines 112-130) *)

(** Line 117: the key of a boundary row. *)
Definition DPTO_CNMBR_NORM (g : Limite) : option ustr :=
  (fun s => str_upper (encode_ascii_ignore (nfkd s))) <$> DPTO_CNMBR g.

(** Line 116: the key of an aggregate row. *)
Definition departamento_upper (d : ustr * option Q) : ustr := str_upper d.1.

(** [gdf.merge(ingreso_por_departamento, left_on=..., right_on=...,
    how='left')]: the left rows in their order, each once per matching
    right row, or once with NaN on the right when nothing matches. *)
Definition merge_left (gdf : list Limite) (ipd : list (ustr * option Q))
    : list (Limite * option (ustr * option Q)) :=
  g ← gdf;
  match filter (fun d => DPTO_CNMBR_NORM g = Some (departamento_upper d)) ipd with
  | [] => [(g, None)]
  | m :: ms => (fun d => (g, Some d)) <$> (m :: ms)
  end.

Definition fillna_texto (c : option ustr) : celda :=
  match c with Some s => Texto s | None => Cero end.

(** [.fillna(0)] on one merged row. *)
Definition fillna_0 (r : Limite * option (ustr * option Q)) : FilaUnida :=
  {| u_DPTO_CNMBR := fillna_texto (DPTO_CNMBR r.1);
     u_geometry := geometry r.1;
     u_DPTO_CNMBR_NORM := fillna_texto (DPTO_CNMBR_NORM r.1);
     u_departamento := fillna_texto (fst <$> r.2);
     u_ingreso_promedio := default 0%Q (r.2 ≫= snd);
     u_departamento_upper := fillna_texto (departamento_upper <$> r.2) |}.

Definition gdf_merged (gdf : option (list Limite)) (df : list Registro)
    : option (list FilaUnida) :=
  (fun g => fillna_0 <$> merge_left g (ingreso_por_departamento df)) <$> gdf.

(** ** Figure builders (lines 211-317) *)

(** The chart of the [except] branches: [px.scatter().update_layout(title=...)]. *)
Definition grafico_vacio (titulo : string) : result Figure :=
  update_layout_title titulo <$> px (Scatter None).

Definition dept_coords (df : list Registro) : list CoordDepto :=
  (fun k => let g := filter (fun r => departamento r = Some k) df in
            {| cd_departamento := k;
               cd_Latitud := mean (Latitud <$> g);
               cd_Longitud := mean (Longitud <$> g);
               cd_Ingreso := mean (Ingreso <$> g) |})
    <$> group_keys (departamento <$> df).

Definition create_alternative_map (df : list Registro) : result Figure :=
  try_except
    (update_layout_title "Mapa Alternativo: Ingresos Promedio por Departamento"
       <$> px (ScatterMapboxDeptos (dept_coords df)))
    (fun _ => grafico_vacio "Datos geoespaciales no disponibles para mostrar el mapa.").

(** The arguments of [px.choropleth] at lines 214-224. *)
Definition mapa_spec (merged : list FilaUnida) (geojson : list Limite)
    (df : list Registro) : ChartSpec :=
  Choropleth merged geojson
    (series_min (snd <$> ingreso_por_departamento df),
     series_max (snd <$> ingreso_por_departamento df)).

Definition create_mapa_figure (merged : option (list FilaUnida))
    (geojson : option (list Limite)) (df : list Registro) : result Figure :=
  match merged, geojson with
  | Some m, Some gj =>
      try_except (px (mapa_spec m gj df)) (fun _ => create_alternative_map df)
  | _, _ => create_alternative_map df
  end.

Definition create_mapa_puntos (df : list Registro) : result Figure :=
  try_except (px (ScatterMapboxPuntos df))
             (fun _ => grafico_vacio "Error al crear el mapa de puntos.").

(** ** Charts built in the layout (lines 349-524) *)

Definition grafico_ocupacion (df : list Registro) : result Figure :=
  px (Pie (ocupacion_counts df)).

Definition grafico_ingreso_ocupacion (df : list Registro) : result Figure :=
  px (Bar (ingreso_por_ocupacion df) false None).

Definition grafico_edad_ocupacion (df : list Registro) : result Figure :=
  px (Box df).

Definition grafico_scatter_edad_ingreso (df : list Registro) : result Figure :=
  px (Scatter (Some df)).

(** [.sort_values('ingreso_promedio', ascending=False).head(5)] *)
Definition top_ingresos (df : list Registro) : list (ustr * option Q) :=
  take 5 (sort_values false (ingreso_por_departamento df)).

(** [.sort_values('ingreso_promedio').head(5)] *)
Definition bottom_ingresos (df : list Registro) : list (ustr * option Q) :=
  take 5 (sort_values true (ingreso_por_departamento df)).

Definition grafico_top_ingresos (df : list Registro) : result Figure :=
  px (Bar (top_ingresos df) true (Some "Top 5 Departamentos con Mayores Ingresos"%string)).

Definition grafico_bottom_ingresos (df : list Registro) : result Figure :=
  px (Bar (bottom_ingresos df) true (Some "Top 5 Departamentos con Menores Ingresos"%string)).

Definition grafico_edad_departamento (df : list Registro) : result Figure :=
  px (Bar (sort_values false (edad_por_departamento df)) false
          (Some "Edad Promedio por Departamento"%string)).

(** The builders of the page, by the id of the graph they fill. *)
Inductive grafico :=
| mapa_principal | mapa_alternativo | mapa_puntos
| g_ocupacion | g_ingreso_ocupacion | g_edad_ocupacion | g_scatter_edad_ingreso
| g_top_ingresos | g_bottom_ingresos | g_edad_departamento.

Definition construir (g : grafico) (gdf : option (list Limite)) (df : list Registro)
    : result Figure :=
  match g with
  | mapa_principal => create_mapa_figure (gdf_merged gdf df) gdf df
  | mapa_alternativo => create_alternative_map df
  | mapa_puntos => create_mapa_puntos df
  | g_ocupacion => grafico_ocupacion df
  | g_ingreso_ocupacion => grafico_ingreso_ocupacion df
  | g_edad_ocupacion => grafico_edad_ocupacion df
  | g_scatter_edad_ingreso => grafico_scatter_edad_ingreso df
  | g_top_ingresos => grafico_top_ingresos df
  | g_bottom_ingresos => grafico_bottom_ingresos df
  | g_edad_departamento => grafico_edad_departamento df
  end.

(** ** Comparison callback (lines 614-673) *)

(** [len(sub) / len(dep_data) * 100 if len(dep_data) > 0 else 0] *)
Definition porcentaje (sub dep_data : list Registro) : Q :=
  if decide (0 < length dep_data)%nat
  then (inject_Z (Z.of_nat (length sub)) / inject_Z (Z.of_nat (length dep_data)) * 100)%Q
  else 0%Q.

(** [sub['Ingreso'].mean() if not sub.empty else 0] *)
Definition ingreso_de (sub : list Registro) : option Q :=
  if negb (empty sub) then mean (Ingreso <$> sub) else Some 0%Q.

Definition con_ocupacion (o : string) (dep_data : list Registro) : list Registro :=
  filter (fun r => ocupacion r = Some (codes o)) dep_data.

(** The dict appended at lines 630-641. *)
Definition fila_comparativa (dep : ustr) (dep_data : list Registro) : FilaComparativa :=
  let estudiantes := con_ocupacion "estudiante" dep_data in
  let trabajadores := con_ocupacion "trabajador" dep_data in
  let desempleados := con_ocupacion "desempleado" dep_data in
  {| c_Departamento := capitalize dep;
     c_Edad_Promedio := mean (Edad <$> dep_data);
     c_Ingreso_Promedio := mean (Ingreso <$> dep_data);
     c_Total_Jovenes := length dep_data;
     c_pct_Estudiantes := porcentaje estudiantes dep_data;
     c_pct_Trabajadores := porcentaje trabajadores dep_data;
     c_pct_Desempleados := porcentaje desempleados dep_data;
     c_Ingreso_Estudiantes := ingreso_de estudiantes;
     c_Ingreso_Trabajadores := ingreso_de trabajadores;
     c_Ingreso_Desempleados := ingreso_de desempleados |}.

(** [df[df['departamento'] == dep]] *)
Definition dep_data_de (df : list Registro) (dep : ustr) : list Registro :=
  filter (fun r => departamento r = Some dep) df.

(** One turn of the loop at lines 621-641. *)
Definition paso (df : list Registro) (resultados : list FilaComparativa) (dep : ustr)
    : list FilaComparativa :=
  let dep_data := dep_data_de df dep in
  if negb (empty dep_data)
  then resultados ++ [fila_comparativa dep dep_data]
  else resultados.

Definition resultados_de (df : list Registro) (departamentos : list ustr)
    : list FilaComparativa :=
  foldl (paso df) [] departamentos.

(** [not departamentos]: true of [None] and of the empty list. *)
Definition sin_seleccion (departamentos : option (list ustr)) : bool :=
  match departamentos with
  | None | Some [] => true
  | Some (_ :: _) => false
  end.

Definition update_tabla_comparativa (df : list Registro)
    (departamentos : option (list ustr)) : componente :=
  if sin_seleccion departamentos || bool_decide (length df = 0%nat)
  then html_P mensaje_seleccion
  else DataTable (resultados_de df (default [] departamentos)).

(** The rows a component shows (a paragraph shows none). *)
Definition filas_de (c : componente) : list FilaComparativa :=
  match c with
  | html_P _ => []
  | DataTable data => data
  end.

(** ** Summary figures (lines 91-93) *)

Definition total_jovenes (df : list Registro) : nat := length df.

(** ** The department selector (lines 532-538) *)

(** [options]: one entry (label, value) per distinct department, in
    sorted order.  With a NaN among the keys the expression raises
    ([sorted] cannot compare it with text, and a lone NaN has no
    [capitalize]); [None] stands for that. *)
Definition opciones_dropdown (df : list Registro) : option (list (ustr * ustr)) :=
  if decide (None ∈ departamento <$> df) then None
  else Some ((fun dep => (capitalize dep, dep))
               <$> merge_sort ustr_le (remove_dups (omap departamento df))).

(** [value]: the keys of the first two records, or nothing when the
    table has fewer than two. *)
Definition valor_inicial (df : list Registro) : list (option ustr) :=
  match df with
  | r0 :: r1 :: _ => [departamento r0; departamento r1]
  | _ => []
  end.

(** ** What is assumed of the library functions *)

(** ASCII characters have no decomposition and combining class 0, so
    NFKD leaves ASCII-only text as it is. *)
Hypothesis nfkd_ascii : forall s, Forall is_ascii s -> nfkd s = s.

(** [sort_values] rearranges the rows and leaves them in order. *)
Hypothesis sort_values_perm : forall asc t, sort_values asc t ≡ₚ t.
Hypothesis sort_values_sorted : forall asc t, Sorted (orden_valores asc) (sort_values asc t).

(** A key as the cleaning leaves it: ASCII, no upper-case letter. *)
Definition car_limpio (c : N) : Prop := is_ascii c ∧ ¬ is_upper_letter c.
Definition clave_limpia (s : ustr) : Prop := Forall car_limpio s.

(** Every department key of the table is a clean key. *)
Definition df_limpio (df : list Registro) : Prop :=
  Forall (fun r => forall k, departamento r = Some k -> clave_limpia k) df.

(** A row with nothing missing, a clean department key and one of the
    three occupations. *)
Definition fila_bien_formada (r : Registro) : Prop :=
  is_Some (Departamento r) ∧ is_Some (Latitud r) ∧ is_Some (Longitud r)
  ∧ is_Some (Edad r) ∧ is_Some (Ocupacion r) ∧ is_Some (Ingreso r)
  ∧ (∃ k, departamento r = Some k ∧ clave_limpia k)
  ∧ ocupacion r ∈ [Some (codes "estudiante"); Some (codes "trabajador");
                    Some (codes "desempleado")].

(** No row of the aggregate table carries the key of the boundary row. *)
Definition sin_pareja (g : Limite) (ipd : list (ustr * option Q)) : Prop :=
  forall d, d ∈ ipd -> DPTO_CNMBR_NORM g ≠ Some (departamento_upper d).

(** [dep] has at least one record in [df]. *)
Definition tiene_registros (df : list Registro) (dep : ustr) : Prop :=
  empty (dep_data_de df dep) = false.

#[global] Instance tiene_registros_dec df dep : Decision (tiene_registros df dep).
Proof. unfold tiene_registros. apply _. Defined.

(** The row the callback computes for [dep]. *)
Definition fila_de (df : list Registro) (dep : ustr) : FilaComparativa :=
  fila_comparativa dep (dep_data_de df dep).

(** The occupation of a record is one of the three the callback counts. *)
Definition ocupacion_conocida (r : Registro) : Prop :=
  ocupacion r ∈ [Some (codes "estudiante"); Some (codes "trabajador");
                  Some (codes "desempleado")].

#[global] Instance ocupacion_conocida_dec r : Decision (ocupacion_conocida r).
Proof. unfold ocupacion_conocida. apply _. Defined.

(** How many records of [df] have the occupation [k]. *)
Definition cuenta_ocupacion (df : list Registro) (k : ustr) : nat :=
  length (filter (fun r => ocupacion r = Some k) df).

(** No two rows of the table have the same mean. *)
Definition medias_distintas (t : list (ustr * option Q)) : Prop :=
  ∀ a b x y, a ∈ t -> b ∈ t -> a.2 = Some x -> b.2 = Some y -> (x == y)%Q -> a = b.

(** ** Text: cleaning and the alias table *)

Lemma lower_char_limpio c : is_ascii c -> car_limpio (lower_char c).
Proof.
  unfold car_limpio, lower_char, is_ascii, is_upper_letter. intros H.
  case_decide; lia.
Qed.

Lemma lower_char_fixed c : ¬ is_upper_letter c -> lower_char c = c.
Proof. unfold lower_char. intros H. by case_decide. Qed.

Lemma encode_ascii_ignore_ascii s : Forall is_ascii (encode_ascii_ignore s).
Proof.
  unfold encode_ascii_ignore. apply Forall_forall. intros c Hc.
  apply list_elem_of_filter in Hc. by destruct Hc.
Qed.

Lemma encode_ascii_ignore_fixed s : Forall is_ascii s -> encode_ascii_ignore s = s.
Proof.
  unfold encode_ascii_ignore. induction 1 as [|c s Hc Hs IH]; [done|].
  rewrite filter_cons_True by done. by rewrite IH.
Qed.

Lemma str_lower_limpia s : Forall is_ascii s -> clave_limpia (str_lower s).
Proof.
  unfold clave_limpia, str_lower. induction 1; simpl; constructor; auto using lower_char_limpio.
Qed.

Lemma str_lower_fixed s : clave_limpia s -> str_lower s = s.
Proof.
  unfold clave_limpia, str_lower. induction 1 as [|c s [_ Hc] Hs IH]; simpl; [done|].
  by rewrite lower_char_fixed, IH.
Qed.

Lemma clave_limpia_ascii s : clave_limpia s -> Forall is_ascii s.
Proof. unfold clave_limpia. intros H. eapply Forall_impl; [exact H|]. by intros c [? _]. Qed.

Lemma limpiar_limpia s : clave_limpia (limpiar s).
Proof. unfold limpiar. apply str_lower_limpia, encode_ascii_ignore_ascii. Qed.

Lemma limpiar_fixed s : clave_limpia s -> limpiar s = s.
Proof using nfkd_ascii.
  intros H. unfold limpiar.
  rewrite nfkd_ascii, encode_ascii_ignore_fixed by by apply clave_limpia_ascii.
  by apply str_lower_fixed.
Qed.

Lemma clave_limpia_dec s : Decision (clave_limpia s).
Proof. unfold clave_limpia, car_limpio. apply _. Defined.

(** The three outcomes of a lookup in the alias table. *)
Lemma replace_value_cases x :
  replace_value correcciones x = x
  ∨ replace_value correcciones x = codes "bogota, d.c."
  ∨ replace_value correcciones x = codes "valle".
Proof.
  unfold replace_value, correcciones, dict_get.
  repeat case_decide; simpl; subst; auto.
Qed.

Lemma replace_value_limpia x : clave_limpia x -> clave_limpia (replace_value correcciones x).
Proof.
  intros H. destruct (replace_value_cases x) as [-> | [-> | ->]]; [done | |];
    unfold clave_limpia; apply (bool_decide_unpack _); by vm_compute.
Qed.

Lemma replace_value_idemp x :
  replace_value correcciones (replace_value correcciones x) = replace_value correcciones x.
Proof.
  destruct (replace_value_cases x) as [E | [E | E]]; rewrite E; [done | |]; by vm_compute.
Qed.

Lemma normalizar_departamento_limpia s : clave_limpia (normalizar_departamento s).
Proof. apply replace_value_limpia, limpiar_limpia. Qed.

(** C2. The name normalisation is idempotent: the department key (NFKD,
    non-ASCII code points dropped, lower case, then the alias table) and
    the occupation key (the same without the alias table) are both left
    unchanged by a second normalisation, for every input text. *)
Theorem normalizar_idempotente (x : ustr) :
  normalizar_departamento (normalizar_departamento x) = normalizar_departamento x
  ∧ normalizar_ocupacion (normalizar_ocupacion x) = normalizar_ocupacion x.
Proof using nfkd_ascii.
  split.
  - unfold normalizar_departamento at 1.
    rewrite limpiar_fixed by apply normalizar_departamento_limpia.
    apply replace_value_idemp.
  - unfold normalizar_ocupacion. apply limpiar_fixed, limpiar_limpia.
Qed.

(** ** The loader *)

Lemma df_de_limpio lectura : df_limpio (df_de lectura).
Proof.
  unfold df_limpio, df_de. destruct lectura as [csv | e]; simpl.
  - apply Forall_fmap, Forall_fmap, Forall_forall. intros r _ k. simpl.
    destruct (csv_Departamento r) as [d|]; simpl; [|done].
    intros [= <-]. apply replace_value_limpia, limpiar_limpia.
  - repeat constructor; intros k [= <-];
      unfold clave_limpia; apply (bool_decide_unpack _); by vm_compute.
Qed.

(** C3. When the body of the [try] raises (file missing, parse error, or
    any other exception), the loader gives the built-in table: exactly 3
    rows, the same column labels as a table read from the file (the seven
    CSV columns and the two derived keys), and after the alias step the
    table handed on still has 3 rows, each with no missing cell, a clean
    department key and one of the three occupations. *)
Theorem cargar_datos_fallo (e : exn) :
  cargar_datos (Raise e) = datos_ejemplo
  ∧ length (filas (cargar_datos (Raise e))) = 3%nat
  ∧ columnas (cargar_datos (Raise e)) ≡ₚ columnas (cargar_datos (Ok []))
  ∧ columnas (cargar_datos (Ok [])) =
      ["ID"; "Departamento"; "Latitud"; "Longitud"; "Edad"; "Ocupación"; "Ingreso";
       "departamento"; "ocupacion"]%string
  ∧ length (df_de (Raise e)) = 3%nat
  ∧ Forall fila_bien_formada (df_de (Raise e)).
Proof.
  split_and!; try reflexivity.
  - apply (bool_decide_unpack _). by vm_compute.
  - unfold df_de. simpl.
    repeat constructor; simpl; eauto;
      try (eexists; split; [reflexivity|]; unfold clave_limpia;
           apply (bool_decide_unpack _); by vm_compute);
      apply (bool_decide_unpack _); by vm_compute.
Qed.

(** ** Grouping *)

Lemma group_keys_NoDup col : NoDup (group_keys col).
Proof.
  unfold group_keys. rewrite merge_sort_Permutation. apply NoDup_remove_dups.
Qed.

Lemma elem_of_group_keys col k : k ∈ group_keys col ↔ Some k ∈ col.
Proof.
  unfold group_keys. rewrite merge_sort_Permutation, elem_of_remove_dups, list_elem_of_omap.
  split.
  - intros (x & Hx & E). simpl in E. by subst.
  - intros H. by exists (Some k).
Qed.

Lemma groupby_mean_keys clave valor df :
  (groupby_mean clave valor df).*1 = group_keys (clave <$> df).
Proof.
  unfold groupby_mean. rewrite <-list_fmap_compose. apply list_fmap_id.
Qed.

Lemma ingreso_por_departamento_limpio df d :
  df_limpio df -> d ∈ ingreso_por_departamento df -> clave_limpia d.1.
Proof.
  intros Hdf Hd. apply (list_elem_of_fmap_2 fst) in Hd.
  unfold ingreso_por_departamento in Hd. rewrite groupby_mean_keys in Hd.
  apply elem_of_group_keys, list_elem_of_fmap in Hd as (r & E & Hr).
  unfold df_limpio in Hdf. rewrite Forall_forall in Hdf. by apply (Hdf r).
Qed.

(** ** Geo join *)

Lemma upper_char_inj c c' :
  car_limpio c -> car_limpio c' -> upper_char c = upper_char c' -> c = c'.
Proof.
  unfold car_limpio, upper_char, is_ascii, is_upper_letter, is_lower_letter.
  intros [? ?] [? ?]. repeat case_decide; lia.
Qed.

Lemma str_upper_inj s s' :
  clave_limpia s -> clave_limpia s' -> str_upper s = str_upper s' -> s = s'.
Proof.
  unfold clave_limpia, str_upper. intros Hs. revert s'.
  induction Hs as [|c s Hc Hs IH]; intros [|c' s'] Hs' E; simpl in E; try done.
  apply Forall_cons in Hs' as [Hc' Hs']. injection E as E1 E2.
  f_equal; [by apply upper_char_inj | by apply IH].
Qed.

Lemma departamento_upper_NoDup df :
  df_limpio df -> NoDup (departamento_upper <$> ingreso_por_departamento df).
Proof.
  intros Hdf. apply NoDup_fmap_2_strong.
  - intros d d' Hd Hd' E. unfold departamento_upper in E.
    apply str_upper_inj in E; eauto using ingreso_por_departamento_limpio.
    assert (NoDup (ingreso_por_departamento df).*1) as Hnd.
    { unfold ingreso_por_departamento. rewrite groupby_mean_keys. apply group_keys_NoDup. }
    clear Hdf. unfold ingreso_por_departamento, groupby_mean in *.
    apply list_elem_of_fmap in Hd as (k & -> & _), Hd' as (k' & -> & _).
    simpl in E. by subst.
  - eapply NoDup_fmap_1. unfold ingreso_por_departamento.
    rewrite groupby_mean_keys. apply group_keys_NoDup.
Qed.

(** With distinct keys on the right, at most one row matches a key. *)
Lemma filter_clave_unica {A} (f : A -> ustr) (k : option ustr) (l : list A) :
  NoDup (f <$> l) -> (length (filter (fun d => k = Some (f d)) l) ≤ 1)%nat.
Proof.
  induction l as [|a l IH]; simpl; [auto|].
  rewrite NoDup_cons. intros [Ha Hl]. rewrite filter_cons.
  case_decide as E; [|by apply IH].
  destruct (filter (fun d => k = Some (f d)) l) as [|b bs] eqn:Hf; [simpl; lia|].
  exfalso. apply Ha.
  assert (b ∈ filter (fun d => k = Some (f d)) l) as Hb by (rewrite Hf; left).
  apply list_elem_of_filter in Hb as [Eb Hb]. subst k. injection Eb as ->.
  by apply list_elem_of_fmap_2.
Qed.

Lemma merge_left_unico gdf ipd :
  NoDup (departamento_upper <$> ipd) ->
  Forall2 (fun g p => p.1 = g ∧ (sin_pareja g ipd -> p.2 = None)) gdf (merge_left gdf ipd).
Proof.
  intros Hnd. unfold merge_left. induction gdf as [|g gdf IH]; [constructor|].
  rewrite bind_cons.
  pose proof (filter_clave_unica departamento_upper (DPTO_CNMBR_NORM g) ipd Hnd) as Hlen.
  destruct (filter _ ipd) as [|m [|m' ms]] eqn:Hf; simpl in Hlen; [| |lia].
  - simpl. constructor; [|done]. by split.
  - simpl. constructor; [|done]. split; [done|]. simpl. intros Hsin.
    assert (m ∈ filter (fun d => DPTO_CNMBR_NORM g = Some (departamento_upper d)) ipd) as Hm
      by (rewrite Hf; left).
    apply list_elem_of_filter in Hm as [Em Hm]. by destruct (Hsin m Hm).
Qed.

(** C1. For every outcome of the read and every boundary table, the geo
    join gives exactly one row per boundary row, in the same order and
    with the geometry and name of that boundary row (no polygon dropped or
    duplicated), and a boundary row whose key matches no row of the
    aggregate table has [ingreso_promedio = 0]. *)
Theorem union_conserva_limites (lectura : result (list FilaCSV)) (gdf : list Limite) :
  ∃ merged,
    gdf_merged (Some gdf) (df_de lectura) = Some merged
    ∧ length merged = length gdf
    ∧ Forall2 (fun g u =>
         u_geometry u = geometry g
         ∧ u_DPTO_CNMBR u = fillna_texto (DPTO_CNMBR g)
         ∧ (sin_pareja g (ingreso_por_departamento (df_de lectura)) ->
            u_ingreso_promedio u = 0%Q)) gdf merged.
Proof.
  eexists. split; [reflexivity|].
  pose proof (merge_left_unico gdf _ (departamento_upper_NoDup _ (df_de_limpio lectura))) as H.
  assert (Forall2 (fun g u =>
         u_geometry u = geometry g
         ∧ u_DPTO_CNMBR u = fillna_texto (DPTO_CNMBR g)
         ∧ (sin_pareja g (ingreso_por_departamento (df_de lectura)) ->
            u_ingreso_promedio u = 0%Q)) gdf
      (fillna_0 <$> merge_left gdf (ingreso_por_departamento (df_de lectura)))) as H2.
  { apply Forall2_fmap_r. eapply Forall2_impl; [exact H|].
    intros g [g' o] [E Ho]. simpl in *. subst g'. split_and!; [done..|].
    intros Hsin. by rewrite (Ho Hsin). }
  split; [|done]. symmetry. by eapply Forall2_length.
Qed.

(** ** Figure builders *)

Lemma create_alternative_map_ok df f0 :
  px (Scatter None) = Ok f0 -> ∃ fig, create_alternative_map df = Ok fig.
Proof.
  intros H0. unfold create_alternative_map, try_except, grafico_vacio.
  destruct (px (ScatterMapboxDeptos _)) as [f|e]; simpl; [by eexists|].
  rewrite H0. by eexists.
Qed.

(** C4, as the code has it.  Provided the empty scatter chart of the
    [except] branches can itself be built, the three map builders never
    hand an exception to their caller: the choropleth builder, the
    alternative point map and the occupation point map each return a
    figure; when plotly raises on the point maps, that figure is the empty
    chart carrying the message of the handler. *)
Theorem mapas_no_propagan (gdf : option (list Limite)) (df : list Registro) (f0 : Figure) :
  px (Scatter None) = Ok f0 ->
  (∀ g, g ∈ [mapa_principal; mapa_alternativo; mapa_puntos] ->
        ∃ fig, construir g gdf df = Ok fig)
  ∧ (∀ e, px (ScatterMapboxDeptos (dept_coords df)) = Raise e ->
          create_alternative_map df =
            Ok (update_layout_title
                  "Datos geoespaciales no disponibles para mostrar el mapa." f0))
  ∧ (∀ e, px (ScatterMapboxPuntos df) = Raise e ->
          create_mapa_puntos df =
            Ok (update_layout_title "Error al crear el mapa de puntos." f0)).
Proof.
  intros H0. split_and!.
  - intros g Hg. rewrite !elem_of_cons, elem_of_nil in Hg.
    destruct Hg as [-> | [-> | [-> | []]]]; simpl.
    + unfold create_mapa_figure.
      destruct (gdf_merged gdf df) as [m|], gdf as [gj|];
        eauto using create_alternative_map_ok.
      unfold try_except. destruct (px (mapa_spec m gj df)) as [f|e];
        eauto using create_alternative_map_ok.
    + eauto using create_alternative_map_ok.
    + unfold create_mapa_puntos, try_except, grafico_vacio.
      destruct (px (ScatterMapboxPuntos df)) as [f|e]; [by eexists|].
      rewrite H0. by eexists.
  - intros e He. unfold create_alternative_map, grafico_vacio. by rewrite He, H0.
  - intros e He. unfold create_mapa_puntos, grafico_vacio. by rewrite He, H0.
Qed.

(** ** Comparison callback *)

Lemma foldl_paso df acc deps :
  foldl (paso df) acc deps = acc ++ (fila_de df <$> filter (tiene_registros df) deps).
Proof.
  revert acc. induction deps as [|dep deps IH]; intros acc; simpl.
  - by rewrite app_nil_r.
  - rewrite IH, filter_cons. unfold paso.
    case_decide as E; unfold tiene_registros in E.
    + rewrite E. simpl. by rewrite <-app_assoc.
    + by destruct (empty (dep_data_de df dep)).
Qed.

Lemma resultados_de_filter df deps :
  resultados_de df deps = fila_de df <$> filter (tiene_registros df) deps.
Proof. unfold resultados_de. by rewrite foldl_paso. Qed.

Lemma tiene_registros_no_vacio df dep : tiene_registros df dep -> length df ≠ 0%nat.
Proof.
  unfold tiene_registros, dep_data_de. destruct df; [|done]. by rewrite filter_nil.
Qed.

(** The rows shown, for any selection and any table. *)
Lemma filas_de_update df deps :
  filas_de (update_tabla_comparativa df (Some deps))
  = fila_de df <$> filter (tiene_registros df) deps.
Proof.
  unfold update_tabla_comparativa.
  destruct deps as [|dep deps]; [done|]. simpl sin_seleccion. simpl orb.
  case_bool_decide as E; simpl; [|apply resultados_de_filter].
  destruct df; [|done]. rewrite filter_cons, decide_False; [|by unfold tiene_registros].
  assert (filter (tiene_registros []) deps = []) as ->; [|done].
  induction deps as [|d deps IH]; [done|].
  by rewrite filter_cons, decide_False; [|by unfold tiene_registros].
Qed.

Lemma porcentaje_nil dep_data : (porcentaje [] dep_data == 0)%Q.
Proof. unfold porcentaje. case_decide; [|done]. simpl length. simpl Z.of_nat. by vm_compute. Qed.

(** C5. With no selection ([None] or the empty list) the callback returns
    the paragraph asking to select at least one department, whatever the
    table is, and so never a data table. *)
Theorem seleccion_vacia_mensaje (df : list Registro) :
  update_tabla_comparativa df None = html_P mensaje_seleccion
  ∧ update_tabla_comparativa df (Some []) = html_P mensaje_seleccion
  ∧ (∀ sel data, sin_seleccion sel = true -> update_tabla_comparativa df sel ≠ DataTable data).
Proof.
  split_and!; [done..|].
  intros sel data H. unfold update_tabla_comparativa. by rewrite H.
Qed.

Lemma fila_de_en_tabla df dep deps :
  tiene_registros df dep -> dep ∈ deps ->
  fila_de df dep ∈ filas_de (update_tabla_comparativa df (Some deps)).
Proof.
  intros Hdep Hin. rewrite filas_de_update.
  apply list_elem_of_fmap_2, list_elem_of_filter. by split.
Qed.

(** C6. A selected department that has records but none with occupation
    "desempleado" gets its row in the table (the callback does not fail),
    with '% Desempleados' equal to 0 and 'Ingreso Desempleados' equal to 0;
    likewise for "estudiante" and "trabajador" when they are absent. *)
Theorem ocupacion_ausente_cero (df : list Registro) (dep : ustr) (deps : list ustr) :
  tiene_registros df dep -> dep ∈ deps ->
  (∃ data, update_tabla_comparativa df (Some deps) = DataTable data ∧ fila_de df dep ∈ data)
  ∧ (con_ocupacion "desempleado" (dep_data_de df dep) = [] ->
       (c_pct_Desempleados (fila_de df dep) == 0)%Q
       ∧ c_Ingreso_Desempleados (fila_de df dep) = Some 0%Q)
  ∧ (con_ocupacion "estudiante" (dep_data_de df dep) = [] ->
       (c_pct_Estudiantes (fila_de df dep) == 0)%Q
       ∧ c_Ingreso_Estudiantes (fila_de df dep) = Some 0%Q)
  ∧ (con_ocupacion "trabajador" (dep_data_de df dep) = [] ->
       (c_pct_Trabajadores (fila_de df dep) == 0)%Q
       ∧ c_Ingreso_Trabajadores (fila_de df dep) = Some 0%Q).
Proof.
  intros Hdep Hin. split_and!.
  - pose proof (fila_de_en_tabla df dep deps Hdep Hin) as H.
    unfold update_tabla_comparativa in *.
    destruct (sin_seleccion (Some deps) || bool_decide (length df = 0%nat)); simpl in H.
    + by apply elem_of_nil in H.
    + by eexists.
  - intros E. unfold fila_de, fila_comparativa. simpl. rewrite E.
    split; [apply porcentaje_nil | done].
  - intros E. unfold fila_de, fila_comparativa. simpl. rewrite E.
    split; [apply porcentaje_nil | done].
  - intros E. unfold fila_de, fila_comparativa. simpl. rewrite E.
    split; [apply porcentaje_nil | done].
Qed.

(** C7. The rows of the comparison table follow the order of the
    selection: their names are those of the selected departments that
    have records, capitalised, in the order in which they were selected;
    and a non-empty selection over a non-empty table does give a table. *)
Theorem orden_de_seleccion (df : list Registro) (deps : list ustr) :
  c_Departamento <$> filas_de (update_tabla_comparativa df (Some deps))
    = capitalize <$> filter (tiene_registros df) deps
  ∧ sublist (c_Departamento <$> filas_de (update_tabla_comparativa df (Some deps)))
            (capitalize <$> deps)
  ∧ (deps ≠ [] -> df ≠ [] ->
     ∃ data, update_tabla_comparativa df (Some deps) = DataTable data).
Proof.
  assert (c_Departamento <$> filas_de (update_tabla_comparativa df (Some deps))
          = capitalize <$> filter (tiene_registros df) deps) as E.
  { rewrite filas_de_update, <-list_fmap_compose. done. }
  split_and!; [done | |].
  - rewrite E. apply fmap_sublist, sublist_filter.
  - intros Hdeps Hdf. unfold update_tabla_comparativa.
    destruct deps; [done|]. destruct df; [done|]. simpl. by eexists.
Qed.

(** C10. A selected department with no record in the table is left out
    without a word: the rows are exactly those of the selected departments
    that have at least one record, one row each, so there are at most as
    many rows as selected departments, and fewer as soon as one selected
    department has no record. *)
Theorem departamentos_sin_registros_omitidos (df : list Registro) (deps : list ustr) :
  filas_de (update_tabla_comparativa df (Some deps))
    = fila_de df <$> filter (tiene_registros df) deps
  ∧ length (filas_de (update_tabla_comparativa df (Some deps)))
    = length (filter (tiene_registros df) deps)
  ∧ (length (filas_de (update_tabla_comparativa df (Some deps))) ≤ length deps)%nat
  ∧ (∀ dep, dep ∈ deps -> ¬ tiene_registros df dep ->
       (length (filas_de (update_tabla_comparativa df (Some deps))) < length deps)%nat)
  ∧ (deps ≠ [] -> df ≠ [] ->
     ∃ data, update_tabla_comparativa df (Some deps) = DataTable data).
Proof.
  rewrite filas_de_update, length_fmap. split_and!; [done | done | | |].
  - apply length_filter.
  - intros dep Hin Hno. by eapply length_filter_lt.
  - intros Hdeps Hdf. unfold update_tabla_comparativa.
    destruct deps; [done|]. destruct df; [done|]. simpl. by eexists.
Qed.

(** ** Sorting and the top and bottom five *)

#[local] Instance orden_valores_trans asc : Transitive (orden_valores asc).
Proof.
  intros [? [x|]] [? [y|]] [? [z|]]; unfold orden_valores; simpl; try done.
  destruct asc; intros H1 H2; [exact (Qle_trans _ _ _ H1 H2) | exact (Qle_trans _ _ _ H2 H1)].
Qed.

Lemma sort_values_strongly asc t : StronglySorted (orden_valores asc) (sort_values asc t).
Proof using sort_values_sorted. apply Sorted_StronglySorted; [apply _ | apply sort_values_sorted]. Qed.

(** C8. The top-5 chart is drawn from the first five rows of the
    per-department mean-income table sorted in descending order, the
    bottom-5 chart from the first five rows of the table sorted in
    ascending order.  In both cases the rows kept are rows of the table
    (five of them, or all when there are fewer), in order, and every row
    left out comes after every row kept in the order of the sort. *)
Theorem top_y_bottom_ingresos (df : list Registro) :
  grafico_top_ingresos df
    = px (Bar (take 5 (sort_values false (ingreso_por_departamento df))) true
              (Some "Top 5 Departamentos con Mayores Ingresos"%string))
  ∧ grafico_bottom_ingresos df
    = px (Bar (take 5 (sort_values true (ingreso_por_departamento df))) true
              (Some "Top 5 Departamentos con Menores Ingresos"%string))
  ∧ ∀ asc,
      let s := sort_values asc (ingreso_por_departamento df) in
      take 5 s ++ drop 5 s ≡ₚ ingreso_por_departamento df
      ∧ length (take 5 s) = (5 `min` length (ingreso_por_departamento df))%nat
      ∧ StronglySorted (orden_valores asc) (take 5 s)
      ∧ ∀ a b, a ∈ take 5 s -> b ∈ drop 5 s -> orden_valores asc a b.
Proof using sort_values_perm sort_values_sorted.
  split_and!; [done..|]. intros asc s.
  pose proof (sort_values_strongly asc (ingreso_por_departamento df)) as Hs.
  fold s in Hs. rewrite <-(take_drop 5 s) in Hs.
  split_and!.
  - rewrite take_drop. apply sort_values_perm.
  - rewrite length_take. unfold s. by rewrite (sort_values_perm asc _).
  - by eapply StronglySorted_app_1_l.
  - intros a b Ha Hb. by eapply StronglySorted_app_1_elem_of.
Qed.

(** ** Colour range of the choropleth *)

Lemma Qmenor_le_l a b : (Qmenor a b <= a)%Q.
Proof.
  unfold Qmenor. destruct (Qle_bool a b) eqn:E; [apply Qle_refl|].
  destruct (Qlt_le_dec b a) as [H|H]; [by apply Qlt_le_weak|].
  apply Qle_bool_iff in H. congruence.
Qed.

Lemma Qmenor_le_r a b : (Qmenor a b <= b)%Q.
Proof.
  unfold Qmenor. destruct (Qle_bool a b) eqn:E; [by apply Qle_bool_iff | apply Qle_refl].
Qed.

Lemma Qmayor_le_l a b : (a <= Qmayor a b)%Q.
Proof.
  unfold Qmayor. destruct (Qle_bool a b) eqn:E; [by apply Qle_bool_iff | apply Qle_refl].
Qed.

Lemma Qmayor_le_r a b : (b <= Qmayor a b)%Q.
Proof.
  unfold Qmayor. destruct (Qle_bool a b) eqn:E; [apply Qle_refl|].
  destruct (Qlt_le_dec b a) as [H|H]; [by apply Qlt_le_weak|].
  apply Qle_bool_iff in H. congruence.
Qed.

Lemma foldl_Qmenor v vs :
  foldl Qmenor v vs ∈ v :: vs ∧ ∀ x, x ∈ v :: vs -> (foldl Qmenor v vs <= x)%Q.
Proof.
  revert v. induction vs as [|w vs IH]; intros v; simpl.
  - split; [left|]. intros x Hx. apply list_elem_of_singleton in Hx as ->. apply Qle_refl.
  - destruct (IH (Qmenor v w)) as [Hin Hle]. split.
    + apply elem_of_cons in Hin as [E | Hin]; [|by do 2 right].
      rewrite E. unfold Qmenor. destruct (Qle_bool v w); [left | right; left].
    + intros x Hx. apply elem_of_cons in Hx as [-> | Hx].
      * eapply Qle_trans; [apply Hle; left | apply Qmenor_le_l].
      * apply elem_of_cons in Hx as [-> | Hx]; [|by apply Hle; right].
        eapply Qle_trans; [apply Hle; left | apply Qmenor_le_r].
Qed.

Lemma foldl_Qmayor v vs :
  foldl Qmayor v vs ∈ v :: vs ∧ ∀ x, x ∈ v :: vs -> (x <= foldl Qmayor v vs)%Q.
Proof.
  revert v. induction vs as [|w vs IH]; intros v; simpl.
  - split; [left|]. intros x Hx. apply list_elem_of_singleton in Hx as ->. apply Qle_refl.
  - destruct (IH (Qmayor v w)) as [Hin Hle]. split.
    + apply elem_of_cons in Hin as [E | Hin]; [|by do 2 right].
      rewrite E. unfold Qmayor. destruct (Qle_bool v w); [right; left | left].
    + intros x Hx. apply elem_of_cons in Hx as [-> | Hx].
      * eapply Qle_trans; [apply Qmayor_le_l | apply Hle; left].
      * apply elem_of_cons in Hx as [-> | Hx]; [|by apply Hle; right].
        eapply Qle_trans; [apply Qmayor_le_r | apply Hle; left].
Qed.

Lemma elem_of_omap_id (col : list (option Q)) v : v ∈ omap id col ↔ Some v ∈ col.
Proof.
  rewrite list_elem_of_omap. split.
  - intros (x & Hx & E). simpl in E. by subst.
  - intros H. by exists (Some v).
Qed.

Lemma series_min_spec col :
  (∀ lo, series_min col = Some lo ->
     Some lo ∈ col ∧ ∀ v, Some v ∈ col -> (lo <= v)%Q)
  ∧ (∀ v, Some v ∈ col -> is_Some (series_min col)).
Proof.
  unfold series_min. destruct (omap id col) as [|w ws] eqn:E; split.
  - done.
  - intros v Hv. apply elem_of_omap_id in Hv. rewrite E in Hv. by apply elem_of_nil in Hv.
  - intros lo [= <-]. destruct (foldl_Qmenor w ws) as [Hin Hle]. split.
    + apply elem_of_omap_id. by rewrite E.
    + intros v Hv. apply Hle. rewrite <-E. by apply elem_of_omap_id.
  - by eexists.
Qed.

Lemma series_max_spec col :
  (∀ hi, series_max col = Some hi ->
     Some hi ∈ col ∧ ∀ v, Some v ∈ col -> (v <= hi)%Q)
  ∧ (∀ v, Some v ∈ col -> is_Some (series_max col)).
Proof.
  unfold series_max. destruct (omap id col) as [|w ws] eqn:E; split.
  - done.
  - intros v Hv. apply elem_of_omap_id in Hv. rewrite E in Hv. by apply elem_of_nil in Hv.
  - intros hi [= <-]. destruct (foldl_Qmayor w ws) as [Hin Hle]. split.
    + apply elem_of_omap_id. by rewrite E.
    + intros v Hv. apply Hle. rewrite <-E. by apply elem_of_omap_id.
  - by eexists.
Qed.

(** C9. The colour range handed to the choropleth is the pair (minimum,
    maximum) of the mean-income column of the per-department aggregate
    table, whatever the joined boundary table holds: both ends are mean
    incomes of departments of that table, and every department mean lies
    between them. *)
Theorem rango_de_color (m : list FilaUnida) (gj : list Limite) (df : list Registro) :
  let col := (ingreso_por_departamento df).*2 in
  mapa_spec m gj df = Choropleth m gj (series_min col, series_max col)
  ∧ create_mapa_figure (Some m) (Some gj) df
    = try_except (px (Choropleth m gj (series_min col, series_max col)))
                 (fun _ => create_alternative_map df)
  ∧ (∀ lo, series_min col = Some lo -> Some lo ∈ col)
  ∧ (∀ hi, series_max col = Some hi -> Some hi ∈ col)
  ∧ (∀ v, Some v ∈ col ->
       ∃ lo hi, series_min col = Some lo ∧ series_max col = Some hi
                ∧ (lo <= v)%Q ∧ (v <= hi)%Q).
Proof.
  intros col. destruct (series_min_spec col) as [Hmin Hmin'].
  destruct (series_max_spec col) as [Hmax Hmax'].
  split_and!; [done | done | | |].
  - intros lo E. by apply Hmin.
  - intros hi E. by apply Hmax.
  - intros v Hv. destruct (Hmin' v Hv) as [lo Elo], (Hmax' v Hv) as [hi Ehi].
    exists lo, hi. split_and!; [done | done | |].
    + by apply (Hmin lo Elo).
    + by apply (Hmax hi Ehi).
Qed.

(** ** Further properties: keys after loading *)

Lemma replace_value_sin_alias x :
  replace_value correcciones x ≠ codes "bogota d.c."
  ∧ replace_value correcciones x ≠ codes "valle del cauca".
Proof.
  unfold replace_value, correcciones, dict_get.
  repeat case_decide; simpl; subst; split; first [ done | by vm_compute | congruence ].
Qed.

Lemma datos_ejemplo_ocupacion_limpia :
  Forall (fun r => forall o, ocupacion r = Some o -> clave_limpia o) (filas datos_ejemplo).
Proof.
  repeat constructor; intros o [= <-];
    unfold clave_limpia; apply (bool_decide_unpack _); by vm_compute.
Qed.

(** X1.  Whatever the read gives, every department key and every occupation
    key of [df] is ASCII with no upper-case letter, and no department key
    is left in a spelling that the alias table rewrites. *)
Theorem claves_tras_cargar (lectura : result (list FilaCSV)) :
  Forall (fun r =>
            (forall k, departamento r = Some k ->
               clave_limpia k ∧ k ≠ codes "bogota d.c." ∧ k ≠ codes "valle del cauca")
            ∧ (forall o, ocupacion r = Some o -> clave_limpia o))
         (df_de lectura).
Proof.
  pose proof (df_de_limpio lectura) as Hdep. unfold df_limpio in Hdep.
  rewrite Forall_forall in Hdep. apply Forall_forall. intros r Hr. split.
  - intros k Hk. split; [by apply (Hdep r)|].
    unfold df_de in Hr. apply list_elem_of_fmap in Hr as (r0 & -> & _).
    simpl in Hk. destruct (departamento r0) as [k0|]; simpl in Hk; [|done].
    injection Hk as <-. apply replace_value_sin_alias.
  - intros o Ho. unfold df_de in Hr. apply list_elem_of_fmap in Hr as (r0 & -> & Hr0).
    simpl in Ho. destruct lectura as [csv | e]; simpl in Hr0.
    + apply list_elem_of_fmap in Hr0 as (c & -> & _). simpl in Ho.
      destruct (csv_Ocupacion c); simpl in Ho; [|done].
      injection Ho as <-. apply limpiar_limpia.
    + pose proof datos_ejemplo_ocupacion_limpia as H. rewrite Forall_forall in H.
      by apply (H r0).
Qed.

(** ** Further properties: grouping *)

#[local] Instance ustr_le_total : Total ustr_le.
Proof.
  unfold ustr_le. intros a. induction a as [|x a IH]; intros [|y b]; simpl; auto.
  destruct (IH b) as [H|H]; repeat case_decide; subst; rewrite ?bool_decide_eq_true;
    auto; try done; lia.
Qed.

#[local] Instance ustr_le_trans : Transitive ustr_le.
Proof.
  unfold ustr_le. intros a. induction a as [|x a IH]; intros [|y b] [|z c]; simpl; try done.
  repeat case_decide; subst; rewrite ?bool_decide_eq_true; try done; try lia.
  apply IH.
Qed.

Lemma omap_fmap_id {A B} (f : A -> option B) (l : list A) : omap id (f <$> l) = omap f l.
Proof.
  induction l as [|a l IH]; [done|]. rewrite fmap_cons. cbn [omap list_omap].
  unfold id at 1. rewrite IH. done.
Qed.

Lemma group_keys_sorted col : StronglySorted ustr_le (group_keys col).
Proof. unfold group_keys. apply StronglySorted_merge_sort; apply _. Qed.

Lemma group_keys_length col : (length (group_keys col) ≤ length col)%nat.
Proof.
  unfold group_keys. rewrite merge_sort_Permutation.
  transitivity (length (omap id col)).
  { apply submseteq_length, NoDup_submseteq; [apply NoDup_remove_dups|].
    intros x Hx. by apply elem_of_remove_dups. }
  clear. induction col as [|[k|] col IH]; cbn [omap list_omap id length] in *; lia.
Qed.

(** X2.  The three aggregate tables of lines 99-109 ([groupby] then [mean]):
    one row per distinct key present in the table, no key twice, keys in
    ascending order, and never more rows than records. *)
Theorem agregados_por_clave (clave : Registro -> option ustr) (valor : Registro -> option Q)
    (df : list Registro) :
  NoDup (groupby_mean clave valor df).*1
  ∧ StronglySorted ustr_le (groupby_mean clave valor df).*1
  ∧ (∀ k, k ∈ (groupby_mean clave valor df).*1 ↔ ∃ r, r ∈ df ∧ clave r = Some k)
  ∧ (∀ k m, (k, m) ∈ groupby_mean clave valor df ->
       m = mean (valor <$> filter (fun r => clave r = Some k) df))
  ∧ (length (groupby_mean clave valor df) ≤ length df)%nat.
Proof.
  rewrite groupby_mean_keys. split_and!.
  - apply group_keys_NoDup.
  - apply group_keys_sorted.
  - intros k. rewrite elem_of_group_keys, list_elem_of_fmap.
    split; [intros (r & E & Hr) | intros (r & Hr & E)]; exists r; by split.
  - intros k m H. unfold groupby_mean in H.
    apply list_elem_of_fmap in H as (k' & [= -> ->] & _). done.
  - rewrite <-(length_fmap fst), groupby_mean_keys.
    etransitivity; [apply group_keys_length|]. by rewrite length_fmap.
Qed.

(** ** Further properties: means *)







(** ** Further properties: occupation counts *)

Lemma filter_todos {A} (P : A -> Prop) `{!∀ x, Decision (P x)} (l : list A) :
  Forall P l -> filter P l = l.
Proof.
  induction 1 as [|x l Hx Hl IH]; [done|]. rewrite filter_cons_True by done. by rewrite IH.
Qed.

Lemma length_filter_cons_clave (l : list ustr) (k : ustr) (ks : list ustr) :
  k ∉ ks ->
  length (filter (fun x => x ∈ k :: ks) l)
  = (length (filter (fun x => x = k) l) + length (filter (fun x => x ∈ ks) l))%nat.
Proof.
  intros Hk. induction l as [|x l IH]; [done|].
  rewrite !filter_cons. destruct (decide (x = k)) as [->|Hne].
  - rewrite decide_True by left. rewrite (decide_False (P := k ∈ ks)) by done.
    simpl. by rewrite IH.
  - destruct (decide (x ∈ ks)) as [Hin|Hnin].
    + rewrite decide_True by by right. simpl. rewrite IH. lia.
    + rewrite decide_False; [done|]. rewrite elem_of_cons. by intros [?|?].
Qed.

Lemma suma_de_cuentas (l : list ustr) (ks : list ustr) :
  NoDup ks ->
  sum_list_with (fun k => length (filter (fun x => x = k) l)) ks
  = length (filter (fun x => x ∈ ks) l).
Proof.
  induction 1 as [|k ks Hk Hks IH]; simpl.
  - induction l as [|x l IHl]; [done|].
    rewrite filter_cons_False; [done|]. apply not_elem_of_nil.
  - by rewrite IH, length_filter_cons_clave.
Qed.

Lemma suma_ext {A} (f g : A -> nat) (l : list A) :
  (∀ x, f x = g x) -> sum_list_with f l = sum_list_with g l.
Proof. intros H. induction l as [|x l IH]; simpl; [done|]. by rewrite H, IH. Qed.

Lemma cuenta_ocupacion_omap df k :
  cuenta_ocupacion df k = length (filter (fun x => x = k) (omap ocupacion df)).
Proof.
  unfold cuenta_ocupacion. induction df as [|r df IH]; [done|].
  rewrite filter_cons. cbn [omap list_omap].
  destruct (ocupacion r) as [o|] eqn:E.
  - rewrite filter_cons. destruct (decide (o = k)) as [->|Hne].
    + rewrite decide_True by done. simpl. by rewrite IH.
    + rewrite decide_False by congruence. done.
  - rewrite decide_False by done. done.
Qed.

Lemma ocupacion_counts_perm df :
  ocupacion_counts df
  ≡ₚ (fun k => (k, Some (inject_Z (Z.of_nat (cuenta_ocupacion df k)))))
       <$> remove_dups (omap ocupacion df).
Proof using sort_values_perm. unfold ocupacion_counts. by rewrite sort_values_perm. Qed.

(** X4.  Lines 96-97.  The occupation table has one row per occupation
    present in the records, none twice; the count of a row is the number
    of records with that occupation, at least 1; and the counts add up to
    the number of records that have an occupation. *)
Theorem ocupacion_counts_total (df : list Registro) :
  NoDup (ocupacion_counts df).*1
  ∧ (∀ k, k ∈ (ocupacion_counts df).*1 ↔ ∃ r, r ∈ df ∧ ocupacion r = Some k)
  ∧ (∀ k c, (k, c) ∈ ocupacion_counts df ->
       c = Some (inject_Z (Z.of_nat (cuenta_ocupacion df k)))
       ∧ (1 ≤ cuenta_ocupacion df k)%nat)
  ∧ sum_list_with (cuenta_ocupacion df) (ocupacion_counts df).*1
    = length (omap ocupacion df).
Proof using sort_values_perm.
  assert ((ocupacion_counts df).*1 ≡ₚ remove_dups (omap ocupacion df)) as Hk.
  { rewrite ocupacion_counts_perm, <-list_fmap_compose. by rewrite list_fmap_id. }
  assert (∀ k, k ∈ remove_dups (omap ocupacion df) ↔ ∃ r, r ∈ df ∧ ocupacion r = Some k) as Hin.
  { intros k. by rewrite elem_of_remove_dups, list_elem_of_omap. }
  split_and!.
  - rewrite Hk. apply NoDup_remove_dups.
  - intros k. by rewrite Hk.
  - intros k c H. rewrite ocupacion_counts_perm in H.
    apply list_elem_of_fmap in H as (k' & [= <- ->] & Hk'). split; [done|].
    apply Hin in Hk' as (r & Hr & E). unfold cuenta_ocupacion.
    assert (r ∈ filter (fun r => ocupacion r = Some k) df) as Hf
      by by apply list_elem_of_filter.
    destruct (filter _ df); [by apply elem_of_nil in Hf | simpl; lia].
  - rewrite Hk.
    rewrite (suma_ext _ (fun k => length (filter (fun x => x = k) (omap ocupacion df))))
      by (intros; apply cuenta_ocupacion_omap).
    rewrite suma_de_cuentas by apply NoDup_remove_dups.
    rewrite filter_todos; [done|]. apply Forall_forall. intros x Hx.
    by apply elem_of_remove_dups.
Qed.

(** ** Further properties: what a matched boundary receives *)

Lemma upper_lower_char c : upper_char (lower_char c) = upper_char c.
Proof.
  unfold upper_char, lower_char, is_lower_letter, is_upper_letter.
  repeat case_decide; lia.
Qed.

Lemma str_upper_lower s : str_upper (str_lower s) = str_upper s.
Proof.
  unfold str_upper, str_lower. rewrite <-list_fmap_compose.
  apply list_fmap_ext. intros _ c _. apply upper_lower_char.
Qed.

Lemma merge_left_pareja gdf ipd :
  NoDup (departamento_upper <$> ipd) ->
  Forall2 (fun g p => ∀ d, d ∈ ipd -> DPTO_CNMBR_NORM g = Some (departamento_upper d) ->
                           p.2 = Some d)
          gdf (merge_left gdf ipd).
Proof.
  intros Hnd. unfold merge_left. induction gdf as [|g gdf IH]; [constructor|].
  rewrite bind_cons.
  pose proof (filter_clave_unica departamento_upper (DPTO_CNMBR_NORM g) ipd Hnd) as Hlen.
  destruct (filter _ ipd) as [|m [|m' ms]] eqn:Hf; simpl in Hlen; [| |lia].
  - simpl. constructor; [|done]. intros d Hd E. exfalso.
    assert (d ∈ filter (fun d => DPTO_CNMBR_NORM g = Some (departamento_upper d)) ipd) as H
      by by apply list_elem_of_filter.
    rewrite Hf in H. by apply elem_of_nil in H.
  - simpl. constructor; [|done]. intros d Hd E. simpl.
    assert (d ∈ filter (fun d => DPTO_CNMBR_NORM g = Some (departamento_upper d)) ipd) as H
      by by apply list_elem_of_filter.
    rewrite Hf in H. apply list_elem_of_singleton in H. by subst.
Qed.

Lemma fila_de_grupo (clave : Registro -> option ustr) (valor : Registro -> option Q) df r k :
  r ∈ df -> clave r = Some k ->
  (k, mean (valor <$> filter (fun r => clave r = Some k) df)) ∈ groupby_mean clave valor df.
Proof.
  intros Hr Hk. unfold groupby_mean.
  apply list_elem_of_fmap. exists k. split; [done|].
  apply elem_of_group_keys, list_elem_of_fmap. by exists r.
Qed.

(** X5.  Lines 116-125.  In the joined table, a boundary row whose key equals
    the upper-case key of an aggregate row carries that row's department
    and its mean income (0 when that mean is NaN).  In particular a
    boundary whose label cleans (accents, case) to the department key of
    some record gets the mean income of that department's records. *)
Theorem union_asigna_media (lectura : result (list FilaCSV)) (gdf : list Limite) :
  ∃ merged,
    gdf_merged (Some gdf) (df_de lectura) = Some merged
    ∧ Forall2 (fun g u =>
         (∀ d, d ∈ ingreso_por_departamento (df_de lectura) ->
               DPTO_CNMBR_NORM g = Some (departamento_upper d) ->
               u_departamento u = Texto d.1
               ∧ u_ingreso_promedio u = default 0%Q d.2)
         ∧ (∀ r k label, r ∈ df_de lectura -> departamento r = Some k ->
               DPTO_CNMBR g = Some label -> limpiar label = k ->
               u_departamento u = Texto k
               ∧ u_ingreso_promedio u
                 = default 0%Q (mean (Ingreso <$> dep_data_de (df_de lectura) k))))
         gdf merged.
Proof.
  eexists. split; [reflexivity|].
  pose proof (merge_left_pareja gdf _ (departamento_upper_NoDup _ (df_de_limpio lectura))) as H.
  apply Forall2_fmap_r. eapply Forall2_impl; [exact H|].
  intros g [g' o] Ho. simpl in Ho.
  assert (∀ d, d ∈ ingreso_por_departamento (df_de lectura) ->
               DPTO_CNMBR_NORM g = Some (departamento_upper d) ->
               u_departamento (fillna_0 (g', o)) = Texto d.1
               ∧ u_ingreso_promedio (fillna_0 (g', o)) = default 0%Q d.2) as Hd.
  { intros d Hd E. rewrite (Ho d Hd E). simpl. by destruct d as [k [m|]]. }
  split; [exact Hd|].
  intros r k label Hr Hk Hlabel Hclean.
  apply (Hd (k, mean (Ingreso <$> dep_data_de (df_de lectura) k))).
  - by apply (fila_de_grupo departamento Ingreso _ r).
  - unfold DPTO_CNMBR_NORM, departamento_upper. rewrite Hlabel. simpl.
    rewrite <-Hclean. unfold limpiar. by rewrite str_upper_lower.
Qed.

(** ** Further properties: the rows of the comparison table *)

Lemma tiene_registros_length df dep :
  tiene_registros df dep ↔ (1 ≤ length (dep_data_de df dep))%nat.
Proof. unfold tiene_registros. destruct (dep_data_de df dep); simpl; split; (done || lia). Qed.

Lemma tiene_registros_elem df dep :
  tiene_registros df dep ↔ ∃ r, r ∈ df ∧ departamento r = Some dep.
Proof.
  unfold tiene_registros, dep_data_de. split.
  - destruct (filter _ df) as [|r l] eqn:E; [done|]. intros _.
    assert (r ∈ filter (fun r => departamento r = Some dep) df) as H by (rewrite E; left).
    apply list_elem_of_filter in H as [? ?]. by exists r.
  - intros (r & Hr & E).
    assert (r ∈ filter (fun r => departamento r = Some dep) df) as H
      by by apply list_elem_of_filter.
    by destruct (filter _ df); [apply elem_of_nil in H|].
Qed.

Lemma inject_Z_nat_le (a b : nat) :
  (a ≤ b)%nat -> (inject_Z (Z.of_nat a) <= inject_Z (Z.of_nat b))%Q.
Proof. intros H. rewrite <-Zle_Qle. lia. Qed.

Lemma inject_Z_nat_pos (n : nat) : (1 ≤ n)%nat -> (0 < inject_Z (Z.of_nat n))%Q.
Proof. intros H. change 0%Q with (inject_Z 0). rewrite <-Zlt_Qlt. lia. Qed.

(** With records in the department the guard of [porcentaje] is passed:
    the value is the quotient, and [x] below is the share of the subset. *)
Lemma porcentaje_cociente (sub dep_data : list Registro) :
  (1 ≤ length dep_data)%nat ->
  ∃ x, (porcentaje sub dep_data == x * 100)%Q
       ∧ (x * inject_Z (Z.of_nat (length dep_data)) == inject_Z (Z.of_nat (length sub)))%Q.
Proof.
  intros Hn. unfold porcentaje. rewrite decide_True by lia.
  eexists. split; [reflexivity|].
  pose proof (inject_Z_nat_pos _ Hn). field. lra.
Qed.


Lemma con_ocupacion_length (o : string) (l : list Registro) :
  (length (con_ocupacion o l) ≤ length l)%nat.
Proof. unfold con_ocupacion. apply length_filter. Qed.


(** X6.  Lines 634-637.  For a department that has records, the row of the
    table counts at least one and at most all of the records, and each
    of the three percentages is the share of the subset times 100, a
    number between 0 and 100: the division is never by zero. *)
Theorem porcentajes_acotados (df : list Registro) (dep : ustr) :
  tiene_registros df dep ->
  (1 ≤ c_Total_Jovenes (fila_de df dep) ≤ length df)%nat
  ∧ (0 <= c_pct_Estudiantes (fila_de df dep) ∧ c_pct_Estudiantes (fila_de df dep) <= 100)%Q
  ∧ (0 <= c_pct_Trabajadores (fila_de df dep) ∧ c_pct_Trabajadores (fila_de df dep) <= 100)%Q
  ∧ (0 <= c_pct_Desempleados (fila_de df dep) ∧ c_pct_Desempleados (fila_de df dep) <= 100)%Q.
Proof.
  intros Hdep. apply tiene_registros_length in Hdep.
  assert (∀ o, 0 <= porcentaje (con_ocupacion o (dep_data_de df dep)) (dep_data_de df dep)
               ∧ porcentaje (con_ocupacion o (dep_data_de df dep)) (dep_data_de df dep) <= 100)%Q
    as Hpct.
  { intros o.
    destruct (porcentaje_cociente (con_ocupacion o (dep_data_de df dep)) _ Hdep) as (x & -> & Hx).
    pose proof (inject_Z_nat_pos _ Hdep) as Hn.
    pose proof (inject_Z_nat_le _ _ (con_ocupacion_length o (dep_data_de df dep))) as Hle.
    pose proof (inject_Z_nat_le 0 _ (Nat.le_0_l (length (con_ocupacion o (dep_data_de df dep)))))
      as H0. change (inject_Z (Z.of_nat 0)) with 0%Q in H0.
    split; nra. }
  unfold fila_de, fila_comparativa. simpl. split_and!; try apply Hpct; [done|].
  unfold dep_data_de. apply length_filter.
Qed.


(** X8.  Lines 615-643.  The callback answers with the prompt exactly when
    nothing is selected or the table is empty.  A selection none of whose
    departments has a record, over a table that is not empty, gives a
    data table with no row, not the prompt. *)
Theorem seleccion_sin_registros (df : list Registro) :
  (∀ sel, update_tabla_comparativa df sel = html_P mensaje_seleccion
          ↔ sin_seleccion sel = true ∨ df = [])
  ∧ (∀ deps, deps ≠ [] -> df ≠ [] -> Forall (fun d => ¬ tiene_registros df d) deps ->
             update_tabla_comparativa df (Some deps) = DataTable []).
Proof.
  split.
  - intros sel. unfold update_tabla_comparativa.
    destruct (sin_seleccion sel); simpl.
    { split; [intros _; by left | done]. }
    case_bool_decide as E.
    + split; [|done]. intros _. right. by destruct df.
    + split; [done|]. intros [H|H]; [done | by subst].
  - intros deps Hdeps Hdf Hno. unfold update_tabla_comparativa.
    destruct deps as [|d deps]; [done|]. destruct df as [|r df]; [done|].
    simpl. f_equal. rewrite resultados_de_filter.
    assert (filter (tiene_registros (r :: df)) (d :: deps) = []) as ->; [|done].
    clear Hdeps. induction Hno as [|x l Hx Hl IH]; [done|].
    by rewrite filter_cons_False.
Qed.

(** ** Further properties: the selector and the table *)

Lemma opciones_claves df ops :
  opciones_dropdown df = Some ops ->
  ops = (fun dep => (capitalize dep, dep)) <$> group_keys (departamento <$> df).
Proof.
  unfold opciones_dropdown, group_keys. case_decide; [done|]. intros [= <-].
  by rewrite omap_fmap_id.
Qed.

(** X9.  Lines 532-538 with 614-643.  When the selector can be built, its
    values are the departments that have records, each once and in
    ascending order, labelled by their capitalised name; and whatever is
    picked among them, the table shows exactly one row per pick, in the
    order picked: the callback leaves none of them out. *)
Theorem opciones_y_tabla (df : list Registro) (ops : list (ustr * ustr)) :
  opciones_dropdown df = Some ops ->
  ops.*1 = capitalize <$> ops.*2
  ∧ NoDup ops.*2
  ∧ StronglySorted ustr_le ops.*2
  ∧ (∀ dep, dep ∈ ops.*2 ↔ tiene_registros df dep)
  ∧ (∀ sel, Forall (fun dep => dep ∈ ops.*2) sel ->
       filas_de (update_tabla_comparativa df (Some sel)) = fila_de df <$> sel).
Proof.
  intros H. apply opciones_claves in H.
  assert (ops.*2 = group_keys (departamento <$> df)) as Hv.
  { rewrite H, <-list_fmap_compose. apply list_fmap_id. }
  assert (∀ dep, dep ∈ ops.*2 ↔ tiene_registros df dep) as Hin.
  { intros dep. rewrite Hv, elem_of_group_keys, tiene_registros_elem, list_elem_of_fmap.
    split; [intros (r & E & Hr) | intros (r & Hr & E)]; exists r; by split. }
  split_and!.
  - rewrite Hv, H, <-list_fmap_compose. done.
  - rewrite Hv. apply group_keys_NoDup.
  - rewrite Hv. apply group_keys_sorted.
  - exact Hin.
  - intros sel Hsel. rewrite filas_de_update, filter_todos; [done|].
    eapply Forall_impl; [exact Hsel|]. intros dep. apply Hin.
Qed.

(** The selector cannot be built exactly when some record has no
    department key. *)
Lemma opciones_dropdown_None df :
  opciones_dropdown df = None ↔ ∃ r, r ∈ df ∧ departamento r = None.
Proof.
  unfold opciones_dropdown. case_decide as H; rewrite list_elem_of_fmap in H.
  - split; [|done]. intros _. destruct H as (r & E & Hr). by exists r.
  - split; [done|]. intros (r & Hr & E). destruct H. by exists r.
Qed.

(** X10.  Lines 535 with 614-643.  With fewer than two records nothing is
    selected at first and the page shows the prompt.  With two or more,
    when the first two records have the keys [d0] and [d1], the first
    table has exactly two rows, for [d0] and for [d1] in that order (the
    same row twice when both records are of one department). *)
Theorem tabla_inicial (df : list Registro) :
  ((length df ≤ 1)%nat ->
     valor_inicial df = []
     ∧ update_tabla_comparativa df (Some []) = html_P mensaje_seleccion)
  ∧ (∀ d0 d1, valor_inicial df = [Some d0; Some d1] ->
       update_tabla_comparativa df (Some [d0; d1])
       = DataTable [fila_de df d0; fila_de df d1]).
Proof.
  split.
  - intros Hlen. split; [|done]. destruct df as [|r0 [|r1 df]]; simpl in *; (done || lia).
  - intros d0 d1 H. destruct df as [|r0 [|r1 df]]; simpl in H; try done.
    injection H as E0 E1. unfold update_tabla_comparativa. simpl. f_equal.
    rewrite resultados_de_filter.
    assert (tiene_registros (r0 :: r1 :: df) d0) as H0.
    { apply tiene_registros_elem. exists r0. split; [left | done]. }
    assert (tiene_registros (r0 :: r1 :: df) d1) as H1.
    { apply tiene_registros_elem. exists r1. split; [right; left | done]. }
    by rewrite !filter_cons_True, filter_nil by done.
Qed.

(** ** Further properties: what can escape a map builder *)

Lemma create_alternative_map_Raise df e :
  create_alternative_map df = Raise e ->
  px (Scatter None) = Raise e ∧ ∃ e', px (ScatterMapboxDeptos (dept_coords df)) = Raise e'.
Proof.
  unfold create_alternative_map, try_except, grafico_vacio.
  destruct (px (ScatterMapboxDeptos _)) as [f|e'] eqn:E1; simpl; [done|].
  destruct (px (Scatter None)) as [f0|e0] eqn:E0; simpl; [done|].
  intros [= <-]. eauto.
Qed.

(** X11.  Lines 211-317.  The only exception a map builder can hand to its
    caller is one raised while building the empty chart of its handler,
    and only after its own map (for the choropleth builder, the
    alternative map as well) has failed to build: an exception raised by
    the map itself never gets out. *)
Theorem solo_escapa_el_grafico_vacio (gdf : option (list Limite)) (df : list Registro)
    (g : grafico) (e : exn) :
  g ∈ [mapa_principal; mapa_alternativo; mapa_puntos] ->
  construir g gdf df = Raise e ->
  px (Scatter None) = Raise e
  ∧ (g = mapa_puntos -> ∃ e', px (ScatterMapboxPuntos df) = Raise e')
  ∧ (g ≠ mapa_puntos -> ∃ e', px (ScatterMapboxDeptos (dept_coords df)) = Raise e').
Proof.
  intros Hg. rewrite !elem_of_cons, elem_of_nil in Hg.
  destruct Hg as [-> | [-> | [-> | []]]]; simpl.
  - unfold create_mapa_figure.
    destruct (gdf_merged gdf df) as [m|], gdf as [gj|];
      try (intros H; apply create_alternative_map_Raise in H as [? ?]; by split_and!).
    unfold try_except. destruct (px (mapa_spec m gj df)); [done|].
    intros H; apply create_alternative_map_Raise in H as [? ?]; by split_and!.
  - intros H; apply create_alternative_map_Raise in H as [? ?]; by split_and!.
  - unfold create_mapa_puntos, try_except, grafico_vacio.
    destruct (px (ScatterMapboxPuntos df)) as [f|e'] eqn:E1; [done|].
    destruct (px (Scatter None)) as [f0|e0] eqn:E0; simpl; [done|].
    intros [= <-]. split_and!; [done | eauto | done].
Qed.

(** ** Further properties: overlap of the top and bottom five *)

Lemma ingreso_por_departamento_NoDup df : NoDup (ingreso_por_departamento df).*1.
Proof. unfold ingreso_por_departamento. rewrite groupby_mean_keys. apply group_keys_NoDup. Qed.

Lemma misma_clave_misma_fila (t : list (ustr * option Q)) a b :
  NoDup t.*1 -> a ∈ t -> b ∈ t -> a.1 = b.1 -> a = b.
Proof.
  induction t as [|c t IH]; [by intros _ H; apply elem_of_nil in H|].
  rewrite fmap_cons, NoDup_cons. intros [Hc Ht] Ha Hb E.
  apply elem_of_cons in Ha as [-> | Ha], Hb as [-> | Hb]; [done | | | by apply IH].
  - destruct Hc. rewrite E. by apply list_elem_of_fmap_2.
  - destruct Hc. rewrite <-E. by apply list_elem_of_fmap_2.
Qed.

Lemma take_claves_NoDup (s t : list (ustr * option Q)) n :
  s ≡ₚ t -> NoDup t.*1 -> NoDup (take n s).*1.
Proof.
  intros Hp Ht. rewrite <-Hp in Ht. rewrite <-(take_drop n s), fmap_app in Ht.
  by apply NoDup_app in Ht as (? & _ & _).
Qed.

(** X12.  Lines 467 and 485.  With at least one and fewer than ten
    departments, some department is in both the top-5 and the bottom-5
    chart. *)
Theorem top_y_bottom_comparten (df : list Registro) :
  (1 ≤ length (ingreso_por_departamento df) < 10)%nat ->
  ∃ d, d ∈ top_ingresos df ∧ d ∈ bottom_ingresos df.
Proof using sort_values_perm.
  intros Hn. set (t := ingreso_por_departamento df) in *.
  pose proof (ingreso_por_departamento_NoDup df) as Hnd. fold t in Hnd.
  unfold top_ingresos, bottom_ingresos. fold t.
  set (top := take 5 (sort_values false t)). set (bot := take 5 (sort_values true t)).
  assert (length top = (5 `min` length t)%nat) as Ltop.
  { unfold top. by rewrite length_take, (sort_values_perm false t). }
  assert (length bot = (5 `min` length t)%nat) as Lbot.
  { unfold bot. by rewrite length_take, (sort_values_perm true t). }
  assert (∀ asc d, d ∈ take 5 (sort_values asc t) -> d ∈ t) as Hsub.
  { intros asc d Hd. apply subseteq_take in Hd. by rewrite sort_values_perm in Hd. }
  destruct (decide (Exists (fun k => k ∈ bot.*1) top.*1)) as [Hex|Hno].
  - apply Exists_exists in Hex as (k & Hk1 & Hk2).
    apply list_elem_of_fmap in Hk1 as (d1 & -> & Hd1), Hk2 as (d2 & E & Hd2).
    exists d1. split; [done|].
    by rewrite (misma_clave_misma_fila t d1 d2 Hnd (Hsub _ _ Hd1) (Hsub _ _ Hd2) E).
  - exfalso. apply not_Exists_Forall in Hno; [|apply _]. rewrite Forall_forall in Hno.
    assert (NoDup (top.*1 ++ bot.*1)) as Happ.
    { apply NoDup_app. split_and!.
      - by apply (take_claves_NoDup _ t).
      - intros k Hk. by apply Hno.
      - by apply (take_claves_NoDup _ t). }
    assert (length (top.*1 ++ bot.*1) ≤ length t.*1)%nat as Hlen.
    { apply submseteq_length, NoDup_submseteq; [done|].
      intros k Hk. apply elem_of_app in Hk as [Hk|Hk];
        apply list_elem_of_fmap in Hk as (d & -> & Hd);
        apply list_elem_of_fmap_2; by eapply Hsub. }
    rewrite length_app, !length_fmap, Ltop, Lbot in Hlen. lia.
Qed.

Lemma StronglySorted_cambia {A} (R R' : relation A) (l : list A) :
  (∀ a b, a ∈ l -> b ∈ l -> R a b -> R' a b) ->
  StronglySorted R l -> StronglySorted R' l.
Proof.
  intros HR Hl. induction Hl as [|x l Hl IH Hx]; constructor.
  - apply IH. intros a b Ha Hb. apply HR; by right.
  - rewrite Forall_forall in *. intros b Hb. apply HR; [left | by right | by apply Hx].
Qed.

Lemma StronglySorted_al_reves {A} (R : relation A) (l : list A) :
  StronglySorted R l -> StronglySorted (flip R) (reverse l).
Proof.
  induction 1 as [|x l Hl IH Hx]; [rewrite reverse_nil; constructor|].
  rewrite reverse_cons. apply StronglySorted_app_2; [|done|repeat constructor].
  intros a b Ha Hb. apply list_elem_of_singleton in Hb as ->.
  rewrite elem_of_reverse in Ha. rewrite Forall_forall in Hx. unfold flip. by apply Hx.
Qed.

(** With no NaN and no two equal means, sorting upwards gives the
    reverse of sorting downwards. *)
Lemma sort_values_reverso (t : list (ustr * option Q)) :
  Forall (fun d => is_Some d.2) t -> medias_distintas t ->
  sort_values true t = reverse (sort_values false t).
Proof using sort_values_perm sort_values_sorted.
  intros Hsome Hdist. rewrite Forall_forall in Hsome.
  assert (∀ asc d, d ∈ sort_values asc t -> d ∈ t) as Hin
    by (intros asc d Hd; by rewrite sort_values_perm in Hd).
  apply (StronglySorted_unique_strong (orden_valores true)).
  - intros a b Ha Hb Hab Hba.
    apply Hin in Ha. rewrite elem_of_reverse in Hb. apply Hin in Hb.
    destruct (Hsome a Ha) as [x Ex], (Hsome b Hb) as [y Ey].
    unfold orden_valores in Hab, Hba. rewrite Ex, Ey in Hab, Hba.
    apply (Hdist a b x y); try done. by apply Qle_antisym.
  - apply sort_values_strongly.
  - eapply StronglySorted_cambia; [|apply StronglySorted_al_reves, (sort_values_strongly false t)].
    intros a b Ha Hb Hab. rewrite elem_of_reverse in Ha, Hb. apply Hin in Ha, Hb.
    destruct (Hsome a Ha) as [x Ex], (Hsome b Hb) as [y Ey].
    unfold flip, orden_valores in *. by rewrite Ex, Ey in *.
  - by rewrite reverse_Permutation, !sort_values_perm.
Qed.

(** X13.  Lines 467 and 485.  With ten departments or more, no NaN mean and
    no two departments with the same mean income, no department is in both
    the top-5 and the bottom-5 chart. *)
Theorem top_y_bottom_disjuntos (df : list Registro) :
  (10 ≤ length (ingreso_por_departamento df))%nat ->
  Forall (fun d => is_Some d.2) (ingreso_por_departamento df) ->
  medias_distintas (ingreso_por_departamento df) ->
  ∀ d, d ∈ top_ingresos df -> d ∉ bottom_ingresos df.
Proof using sort_values_perm sort_values_sorted.
  intros Hn Hsome Hdist d Htop Hbot. set (t := ingreso_por_departamento df) in *.
  unfold top_ingresos, bottom_ingresos in *. fold t in Htop, Hbot.
  rewrite (sort_values_reverso t Hsome Hdist) in Hbot.
  set (s := sort_values false t) in *.
  assert (length s = length t) as Hlen by (unfold s; by rewrite sort_values_perm).
  assert (NoDup s) as Hnd.
  { unfold s. rewrite sort_values_perm. eapply NoDup_fmap_1, ingreso_por_departamento_NoDup. }
  rewrite take_reverse, elem_of_reverse in Hbot.
  replace (length s - 5)%nat with (5 + (length s - 10))%nat in Hbot by lia.
  rewrite <-drop_drop in Hbot. apply subseteq_drop in Hbot.
  rewrite <-(take_drop 5 s) in Hnd. apply NoDup_app in Hnd as (_ & Hdis & _).
  by apply (Hdis d).
Qed.

(** ** Further properties: coherence between the views *)

Lemma cargar_datos_limpio lectura :
  Forall (fun r => (forall k, departamento r = Some k -> clave_limpia k)
                   ∧ (forall o, ocupacion r = Some o -> clave_limpia o))
         (filas (cargar_datos lectura)).
Proof.
  destruct lectura as [csv | e]; simpl.
  - apply Forall_fmap, Forall_forall. intros c _. simpl. split.
    + intros k. destruct (csv_Departamento c); simpl; [|done].
      intros [= <-]. apply limpiar_limpia.
    + intros o. destruct (csv_Ocupacion c); simpl; [|done].
      intros [= <-]. apply limpiar_limpia.
  - repeat constructor; intros k [= <-];
      unfold clave_limpia; apply (bool_decide_unpack _); by vm_compute.
Qed.

(** X14.  Lines 55-88.  The keys kept in [df] are canonical: normalising a
    department key or an occupation key of the table once more gives the
    same key, for a table read from the file and for the built-in one. *)
Theorem claves_canonicas (lectura : result (list FilaCSV)) :
  Forall (fun r => normalizar_departamento <$> departamento r = departamento r
                   ∧ normalizar_ocupacion <$> ocupacion r = ocupacion r)
         (df_de lectura).
Proof using nfkd_ascii.
  unfold df_de. apply Forall_fmap.
  eapply Forall_impl; [apply cargar_datos_limpio|].
  intros r [Hd Ho]. simpl. split.
  - destruct (departamento r) as [k|]; simpl; [|done]. f_equal.
    unfold normalizar_departamento.
    rewrite limpiar_fixed by (apply replace_value_limpia; by apply Hd).
    apply replace_value_idemp.
  - destruct (ocupacion r) as [o|]; simpl; [|done]. f_equal.
    unfold normalizar_ocupacion. apply limpiar_fixed. by apply Ho.
Qed.



End App.

(** ** Instances of the library functions *)

Lemma latin1_decomp_ascii c : is_ascii c -> latin1_decomp c = [c].
Proof.
  unfold is_ascii, latin1_decomp. intros H.
  repeat (case_decide; [lia|]). done.
Qed.

Lemma nfkd_latin1_ascii s : Forall is_ascii s -> nfkd_latin1 s = s.
Proof.
  unfold nfkd_latin1. induction 1 as [|c s Hc Hs IH]; [done|].
  rewrite bind_cons, IH, latin1_decomp_ascii by done. done.
Qed.

#[local] Instance orden_valores_total asc : Total (orden_valores asc).
Proof.
  intros [? [x|]] [? [y|]]; unfold orden_valores; simpl; auto.
  destruct (Qlt_le_dec x y) as [H|H]; [apply Qlt_le_weak in H|]; destruct asc; auto.
Qed.

Lemma ordenar_perm asc t : ordenar asc t ≡ₚ t.
Proof. apply merge_sort_Permutation. Qed.

Lemma ordenar_sorted asc t : Sorted (orden_valores asc) (ordenar asc t).
Proof. apply Sorted_merge_sort, _. Qed.

(** ** The theorems at work on the example table *)

Example limpiar_bogota :
  limpiar nfkd_latin1 (codes "Bogot" ++ [225] ++ codes " D.C.") = codes "bogota d.c."
  ∧ normalizar_departamento nfkd_latin1 (codes "Bogot" ++ [225] ++ codes " D.C.")
    = codes "bogota, d.c."
  ∧ normalizar_departamento nfkd_latin1 (codes "Valle del Cauca") = codes "valle".
Proof. split_and!; by vm_compute. Qed.

Lemma normalizar_idempotente_bogota :
  normalizar_departamento nfkd_latin1
    (normalizar_departamento nfkd_latin1 (codes "Bogot" ++ [225] ++ codes " D.C."))
  = normalizar_departamento nfkd_latin1 (codes "Bogot" ++ [225] ++ codes " D.C.")
  ∧ normalizar_ocupacion nfkd_latin1
      (normalizar_ocupacion nfkd_latin1 (codes "Bogot" ++ [225] ++ codes " D.C."))
    = normalizar_ocupacion nfkd_latin1 (codes "Bogot" ++ [225] ++ codes " D.C.").
Proof.
  exact (normalizar_idempotente nfkd_latin1 nfkd_latin1_ascii
           (codes "Bogot" ++ [225] ++ codes " D.C.")).
Defined.

(** A file that is read without error but has no row gives an empty
    table: the example table stands in only when the read fails. *)
Remark lectura_sin_filas nfkd : df_de nfkd (Ok []) = [].
Proof. reflexivity. Qed.

Example union_ejemplo :
  fmap (M:=list) u_ingreso_promedio <$>
    gdf_merged nfkd_latin1 (Some [limite_amazonas; limite_santander])
      (df_de nfkd_latin1 lectura_fallida)
  = Some [0%Q; 868997%Q].
Proof. by vm_compute. Qed.

(** On a table read from a file: the accented capital matches the
    aggregate key, and the boundary spelled in full does not match the
    alias "valle", so it is filled with 0. *)
Example union_tres_filas :
  ingreso_por_departamento (df_de nfkd_latin1 lectura_tres_filas)
  = [(codes "bogota, d.c.", Some 1000000%Q); (codes "valle", Some 500000%Q)]
  ∧ fmap (M:=list) (fun u => (u_DPTO_CNMBR_NORM u, u_ingreso_promedio u)) <$>
      gdf_merged nfkd_latin1 (Some [limite_bogota; limite_valle; limite_amazonas])
        (df_de nfkd_latin1 lectura_tres_filas)
    = Some [(Texto (codes "BOGOTA, D.C."), 1000000%Q);
            (Texto (codes "VALLE DEL CAUCA"), 0%Q);
            (Texto (codes "AMAZONAS"), 0%Q)].
Proof. split; by vm_compute. Qed.

(** The builders of the three maps on the example table, with a backend
    that raises on every chart but the empty one. *)
Lemma mapas_no_propagan_ejemplo :
  (∀ g, g ∈ [mapa_principal; mapa_alternativo; mapa_puntos] ->
        ∃ fig, construir nfkd_latin1 ordenar px_solo_vacio g None
                 (df_de nfkd_latin1 lectura_fallida) = Ok fig)
  ∧ (∀ e, px_solo_vacio (ScatterMapboxDeptos (dept_coords (df_de nfkd_latin1 lectura_fallida)))
          = Raise e ->
          create_alternative_map px_solo_vacio (df_de nfkd_latin1 lectura_fallida) =
            Ok (update_layout_title
                  "Datos geoespaciales no disponibles para mostrar el mapa."
                  {| fig_spec := Scatter None; fig_title := None |}))
  ∧ (∀ e, px_solo_vacio (ScatterMapboxPuntos (df_de nfkd_latin1 lectura_fallida)) = Raise e ->
          create_mapa_puntos px_solo_vacio (df_de nfkd_latin1 lectura_fallida) =
            Ok (update_layout_title "Error al crear el mapa de puntos."
                  {| fig_spec := Scatter None; fig_title := None |})).
Proof.
  exact (mapas_no_propagan nfkd_latin1 ordenar px_solo_vacio None
           (df_de nfkd_latin1 lectura_fallida)
           {| fig_spec := Scatter None; fig_title := None |} eq_refl).
Defined.

(** C4 as stated does not hold: the charts built in the layout call
    plotly with no handler around the call.  With a backend that builds
    the maps and the empty chart but raises on the other charts, every one
    of the seven charts of the layout hands the exception to its caller,
    so not every builder returns a figure. *)
Lemma graficos_del_layout_propagan :
  px_solo_mapas (Scatter None) = Ok {| fig_spec := Scatter None; fig_title := None |}
  ∧ Forall (fun g => construir nfkd_latin1 ordenar px_solo_mapas g None
                       (df_de nfkd_latin1 lectura_fallida) = Raise ValueError)
      [g_ocupacion; g_ingreso_ocupacion; g_edad_ocupacion; g_scatter_edad_ingreso;
       g_top_ingresos; g_bottom_ingresos; g_edad_departamento]
  ∧ ¬ (∀ g, ∃ fig, construir nfkd_latin1 ordenar px_solo_mapas g None
                     (df_de nfkd_latin1 lectura_fallida) = Ok fig).
Proof.
  split_and!.
  - reflexivity.
  - repeat constructor.
  - intros H. destruct (H g_edad_ocupacion) as [fig Hfig]. discriminate Hfig.
Qed.

Lemma ocupacion_ausente_cero_santander :
  (∃ data, update_tabla_comparativa ascii_capitalize (df_de nfkd_latin1 lectura_fallida)
             (Some [codes "santander"; codes "cundinamarca"]) = DataTable data
           ∧ fila_de ascii_capitalize (df_de nfkd_latin1 lectura_fallida) (codes "santander")
             ∈ data)
  ∧ (c_pct_Desempleados
       (fila_de ascii_capitalize (df_de nfkd_latin1 lectura_fallida) (codes "santander")) == 0)%Q
  ∧ c_Ingreso_Desempleados
      (fila_de ascii_capitalize (df_de nfkd_latin1 lectura_fallida) (codes "santander"))
    = Some 0%Q.
Proof.
  destruct (ocupacion_ausente_cero ascii_capitalize (df_de nfkd_latin1 lectura_fallida)
              (codes "santander") [codes "santander"; codes "cundinamarca"]
              eq_refl (list_elem_of_here _ _))
    as (Htabla & Hdes & _ & _).
  split; [exact Htabla | exact (Hdes eq_refl)].
Defined.

Example tabla_ejemplo :
  c_Departamento <$>
    filas_de (update_tabla_comparativa ascii_capitalize (df_de nfkd_latin1 lectura_fallida)
                (Some [codes "santander"; codes "antioquia"; codes "bogota, d.c."]))
  = [codes "Santander"; codes "Bogota, d.c."].
Proof. by vm_compute. Qed.

Lemma top_y_bottom_ingresos_ejemplo :
  grafico_top_ingresos ordenar px_total (df_de nfkd_latin1 lectura_fallida)
    = px_total (Bar (take 5 (ordenar false
                       (ingreso_por_departamento (df_de nfkd_latin1 lectura_fallida))))
                  true (Some "Top 5 Departamentos con Mayores Ingresos"%string))
  ∧ grafico_bottom_ingresos ordenar px_total (df_de nfkd_latin1 lectura_fallida)
    = px_total (Bar (take 5 (ordenar true
                       (ingreso_por_departamento (df_de nfkd_latin1 lectura_fallida))))
                  true (Some "Top 5 Departamentos con Menores Ingresos"%string))
  ∧ ∀ asc,
      let s := ordenar asc (ingreso_por_departamento (df_de nfkd_latin1 lectura_fallida)) in
      take 5 s ++ drop 5 s ≡ₚ ingreso_por_departamento (df_de nfkd_latin1 lectura_fallida)
      ∧ length (take 5 s)
        = (5 `min` length (ingreso_por_departamento (df_de nfkd_latin1 lectura_fallida)))%nat
      ∧ StronglySorted (orden_valores asc) (take 5 s)
      ∧ ∀ a b, a ∈ take 5 s -> b ∈ drop 5 s -> orden_valores asc a b.
Proof.
  exact (top_y_bottom_ingresos ordenar px_total ordenar_perm ordenar_sorted
           (df_de nfkd_latin1 lectura_fallida)).
Defined.

Example top_ejemplo :
  (take 5 (ordenar false (ingreso_por_departamento (df_de nfkd_latin1 lectura_fallida)))).*1
  = [codes "santander"; codes "cundinamarca"; codes "bogota, d.c."]
  ∧ (take 5 (ordenar true (ingreso_por_departamento (df_de nfkd_latin1 lectura_fallida)))).*1
    = [codes "bogota, d.c."; codes "cundinamarca"; codes "santander"].
Proof. split; by vm_compute. Qed.

(** The colour range comes from the aggregate table: the boundary with no
    match is filled with 0, below the lower end of the range. *)
Example rango_ejemplo :
  mapa_spec
    (default [] (gdf_merged nfkd_latin1 (Some [limite_amazonas; limite_santander])
                   (df_de nfkd_latin1 lectura_fallida)))
    [limite_amazonas; limite_santander] (df_de nfkd_latin1 lectura_fallida)
  = Choropleth
      (default [] (gdf_merged nfkd_latin1 (Some [limite_amazonas; limite_santander])
                     (df_de nfkd_latin1 lectura_fallida)))
      [limite_amazonas; limite_santander] (Some 415614%Q, Some 868997%Q).
Proof. by vm_compute. Qed.

(** ** The further properties at work *)

Lemma distintasb_correcto (t : list (ustr * option Q)) :
  distintasb t = true -> medias_distintas t.
Proof.
  induction t as [|c t IH]; intros H a b x y Ha Hb Ex Ey Hxy.
  { by apply elem_of_nil in Ha. }
  simpl in H. apply andb_true_iff in H as [Hc Ht]. rewrite forallb_forall in Hc.
  apply elem_of_cons in Ha as [-> | Ha], Hb as [-> | Hb]; [done | | | by apply (IH Ht a b x y)].
  - apply list_elem_of_In, Hc in Hb. rewrite Ex, Ey in Hb.
    apply Qeq_bool_iff in Hxy. by rewrite Hxy in Hb.
  - apply list_elem_of_In, Hc in Ha. rewrite Ex, Ey in Ha.
    symmetry in Hxy. apply Qeq_bool_iff in Hxy. by rewrite Hxy in Ha.
Qed.

Lemma ocupacion_counts_total_ejemplo :
  NoDup (ocupacion_counts ordenar (df_de nfkd_latin1 lectura_tres_filas)).*1
  ∧ (∀ k, k ∈ (ocupacion_counts ordenar (df_de nfkd_latin1 lectura_tres_filas)).*1
          ↔ ∃ r, r ∈ df_de nfkd_latin1 lectura_tres_filas ∧ ocupacion r = Some k)
  ∧ (∀ k c, (k, c) ∈ ocupacion_counts ordenar (df_de nfkd_latin1 lectura_tres_filas) ->
       c = Some (inject_Z (Z.of_nat
                   (cuenta_ocupacion (df_de nfkd_latin1 lectura_tres_filas) k)))
       ∧ (1 ≤ cuenta_ocupacion (df_de nfkd_latin1 lectura_tres_filas) k)%nat)
  ∧ sum_list_with (cuenta_ocupacion (df_de nfkd_latin1 lectura_tres_filas))
      (ocupacion_counts ordenar (df_de nfkd_latin1 lectura_tres_filas)).*1
    = length (omap ocupacion (df_de nfkd_latin1 lectura_tres_filas)).
Proof.
  exact (ocupacion_counts_total ordenar ordenar_perm (df_de nfkd_latin1 lectura_tres_filas)).
Defined.

Lemma porcentajes_acotados_bogota :
  (1 ≤ c_Total_Jovenes (fila_de ascii_capitalize (df_de nfkd_latin1 lectura_tres_filas)
                          (codes "bogota, d.c."))
   ≤ length (df_de nfkd_latin1 lectura_tres_filas))%nat
  ∧ (0 <= c_pct_Estudiantes (fila_de ascii_capitalize (df_de nfkd_latin1 lectura_tres_filas)
                               (codes "bogota, d.c."))
     ∧ c_pct_Estudiantes (fila_de ascii_capitalize (df_de nfkd_latin1 lectura_tres_filas)
                            (codes "bogota, d.c.")) <= 100)%Q
  ∧ (0 <= c_pct_Trabajadores (fila_de ascii_capitalize (df_de nfkd_latin1 lectura_tres_filas)
                                (codes "bogota, d.c."))
     ∧ c_pct_Trabajadores (fila_de ascii_capitalize (df_de nfkd_latin1 lectura_tres_filas)
                             (codes "bogota, d.c.")) <= 100)%Q
  ∧ (0 <= c_pct_Desempleados (fila_de ascii_capitalize (df_de nfkd_latin1 lectura_tres_filas)
                                (codes "bogota, d.c."))
     ∧ c_pct_Desempleados (fila_de ascii_capitalize (df_de nfkd_latin1 lectura_tres_filas)
                             (codes "bogota, d.c.")) <= 100)%Q.
Proof.
  exact (porcentajes_acotados ascii_capitalize (df_de nfkd_latin1 lectura_tres_filas)
           (codes "bogota, d.c.") eq_refl).
Defined.


Example porcentajes_bogota :
  let fila := fila_de ascii_capitalize (df_de nfkd_latin1 lectura_tres_filas)
                (codes "bogota, d.c.") in
  c_Total_Jovenes fila = 2%nat
  ∧ (c_pct_Estudiantes fila == 0)%Q ∧ (c_pct_Trabajadores fila == 50)%Q
  ∧ (c_pct_Desempleados fila == 50)%Q
  ∧ c_Ingreso_Promedio fila = Some 1000000%Q
  ∧ c_Ingreso_Desempleados fila = None.
Proof. split_and!; by vm_compute. Qed.

Example seleccion_desconocida :
  update_tabla_comparativa ascii_capitalize (df_de nfkd_latin1 lectura_fallida)
    (Some [codes "antioquia"; codes "Santander"])
  = DataTable [].
Proof. by vm_compute. Qed.

Example opciones_ejemplo :
  opciones_dropdown ascii_capitalize (df_de nfkd_latin1 lectura_fallida)
  = Some [(codes "Bogota, d.c.", codes "bogota, d.c.");
          (codes "Cundinamarca", codes "cundinamarca");
          (codes "Santander", codes "santander")]
  ∧ valor_inicial (df_de nfkd_latin1 lectura_fallida)
    = [Some (codes "santander"); Some (codes "cundinamarca")].
Proof. split; by vm_compute. Qed.

Lemma opciones_y_tabla_ejemplo :
  filas_de (update_tabla_comparativa ascii_capitalize (df_de nfkd_latin1 lectura_fallida)
              (Some [codes "santander"; codes "bogota, d.c."]))
  = fila_de ascii_capitalize (df_de nfkd_latin1 lectura_fallida)
      <$> [codes "santander"; codes "bogota, d.c."].
Proof.
  refine (proj2 (proj2 (proj2 (proj2
            (opciones_y_tabla ascii_capitalize (df_de nfkd_latin1 lectura_fallida)
               [(codes "Bogota, d.c.", codes "bogota, d.c.");
                (codes "Cundinamarca", codes "cundinamarca");
                (codes "Santander", codes "santander")] _)))) _ _).
  - by vm_compute.
  - repeat constructor; apply (bool_decide_unpack _); by vm_compute.
Defined.

Lemma solo_escapa_el_grafico_vacio_ejemplo :
  px_nada (Scatter None) = Raise ValueError
  ∧ (mapa_puntos = mapa_puntos ->
     ∃ e', px_nada (ScatterMapboxPuntos (df_de nfkd_latin1 lectura_fallida)) = Raise e')
  ∧ (mapa_puntos ≠ mapa_puntos ->
     ∃ e', px_nada (ScatterMapboxDeptos (dept_coords (df_de nfkd_latin1 lectura_fallida)))
           = Raise e').
Proof.
  exact (solo_escapa_el_grafico_vacio nfkd_latin1 ordenar px_nada None
           (df_de nfkd_latin1 lectura_fallida) mapa_puntos ValueError
           (list_elem_of_further _ _ _ (list_elem_of_further _ _ _ (list_elem_of_here _ _)))
           eq_refl).
Defined.

Lemma top_y_bottom_comparten_ejemplo :
  ∃ d, d ∈ top_ingresos ordenar (df_de nfkd_latin1 lectura_fallida)
       ∧ d ∈ bottom_ingresos ordenar (df_de nfkd_latin1 lectura_fallida).
Proof.
  apply (top_y_bottom_comparten ordenar ordenar_perm). vm_compute. lia.
Defined.

Lemma top_y_bottom_disjuntos_diez :
  Forall (fun d => d ∉ bottom_ingresos ordenar (df_de nfkd_latin1 lectura_diez))
         (top_ingresos ordenar (df_de nfkd_latin1 lectura_diez)).
Proof.
  apply Forall_forall.
  apply (top_y_bottom_disjuntos ordenar ordenar_perm ordenar_sorted).
  - vm_compute. lia.
  - apply (bool_decide_unpack _). by vm_compute.
  - apply distintasb_correcto. by vm_compute.
Defined.

Example top_y_bottom_diez :
  (top_ingresos ordenar (df_de nfkd_latin1 lectura_diez)).*1
  = [codes "atlantico"; codes "narino"; codes "meta"; codes "antioquia"; codes "caldas"]
  ∧ (bottom_ingresos ordenar (df_de nfkd_latin1 lectura_diez)).*1
    = [codes "cauca"; codes "cesar"; codes "huila"; codes "boyaca"; codes "bolivar"].
Proof. split; by vm_compute. Qed.

Lemma claves_canonicas_tres_filas :
  Forall (fun r => normalizar_departamento nfkd_latin1 <$> departamento r = departamento r
                   ∧ normalizar_ocupacion nfkd_latin1 <$> ocupacion r = ocupacion r)
         (df_de nfkd_latin1 lectura_tres_filas).
Proof. exact (claves_canonicas nfkd_latin1 nfkd_latin1_ascii lectura_tres_filas). Defined.

